(** * sarif_to_pdf: extraction, classification and table formatting

    A shallow embedding of [sarif_to_pdf.py].  The script reads SARIF
    documents with [json.load], flattens them into rows, and renders the
    rows as charts and tables.  Python values are embedded as an inductive
    type, exceptions as an explicit result type, and each function of the
    script as a Rocq function of the same name. *)

From Stdlib Require Import String Ascii List ZArith Lia Bool DecimalString.
Import ListNotations.
Open Scope string_scope.
Open Scope Z_scope.

Local Set Warnings "-register-all".

(** ** Python values

    What [json.load] can return.  A [str] is a [string] whose characters
    stand for code points below 256.  A float is held by its [repr], which
    Python guarantees to read back to the same float, so that [str] of a
    float is that text and the two zeros are ["0.0"] and ["-0.0"].  A dict
    is its list of items in insertion order; the keys of a dict Python
    builds are distinct, and lookup takes the first item with the key. *)

Module Py.

Inductive value : Type :=
| VNone
| VBool (b : bool)
| VInt (n : Z)
| VFloat (repr : string)
| VStr (s : string)
| VList (l : list value)
| VDict (d : list (string * value)).

Definition dict := list (string * value).

(** Exceptions the script can meet, with what [str(e)] shows of them. *)
Inductive exn : Type :=
| AttributeError (ty attr : string)
| TypeError (msg : string)
| KeyError (key : string)
| IndexError (msg : string)
| ValueError (msg : string)
| LoadError (msg : string).

Inductive result (A : Type) : Type :=
| Ok (a : A)
| Raise (e : exn).
Arguments Ok {A} a.
Arguments Raise {A} e.

Definition bind {A B} (m : result A) (f : A -> result B) : result B :=
  match m with
  | Ok a => f a
  | Raise e => Raise e
  end.

Fixpoint mapM {A B} (f : A -> result B) (l : list A) : result (list B) :=
  match l with
  | [] => Ok []
  | x :: xs =>
      match f x with
      | Ok y => match mapM f xs with
                | Ok ys => Ok (y :: ys)
                | Raise e => Raise e
                end
      | Raise e => Raise e
      end
  end.

Definition is_ok {A} (m : result A) : bool :=
  match m with Ok _ => true | Raise _ => false end.

Definition type_name (v : value) : string :=
  match v with
  | VNone => "NoneType"
  | VBool _ => "bool"
  | VInt _ => "int"
  | VFloat _ => "float"
  | VStr _ => "str"
  | VList _ => "list"
  | VDict _ => "dict"
  end.

Definition exn_str (e : exn) : string :=
  match e with
  | AttributeError ty attr =>
      "'" ++ ty ++ "' object has no attribute '" ++ attr ++ "'"
  | TypeError msg => msg
  | KeyError key => key
  | IndexError msg => msg
  | ValueError msg => msg
  | LoadError msg => msg
  end.

(** [bool(v)] *)
Definition truthy (v : value) : bool :=
  match v with
  | VNone => false
  | VBool b => b
  | VInt n => negb (n =? 0)
  | VFloat r => negb ((r =? "0.0")%string || (r =? "-0.0")%string)
  | VStr s => negb (s =? "")%string
  | VList l => match l with [] => false | _ => true end
  | VDict d => match d with [] => false | _ => true end
  end.

(** [a or b] *)
Definition or_ (a b : value) : value := if truthy a then a else b.

(** [k in d] and [d[k]] for a dict [d]. *)
Fixpoint lookup (d : dict) (k : string) : option value :=
  match d with
  | [] => None
  | (k', v) :: d' => if (k' =? k)%string then Some v else lookup d' k
  end.

(** [obj.get(k, dflt)]; only a dict has the method. *)
Definition get (obj : value) (k : string) (dflt : value) : result value :=
  match obj with
  | VDict d => Ok (match lookup d k with Some v => v | None => dflt end)
  | _ => Raise (AttributeError (type_name obj) "get")
  end.

Definition str1 (c : ascii) : string := String c "".

(** The items a [for] loop draws from [v]. *)
Definition iter (v : value) : result (list value) :=
  match v with
  | VList l => Ok l
  | VDict d => Ok (map (fun kv => VStr (fst kv)) d)
  | VStr s => Ok (map (fun c => VStr (str1 c)) (list_ascii_of_string s))
  | _ => Raise (TypeError ("'" ++ type_name v ++ "' object is not iterable"))
  end.

(** [v[0]] *)
Definition item0 (v : value) : result value :=
  match v with
  | VList (x :: _) => Ok x
  | VList [] => Raise (IndexError "list index out of range")
  | VStr (String c _) => Ok (VStr (str1 c))
  | VStr EmptyString => Raise (IndexError "string index out of range")
  | VDict _ => Raise (KeyError "0")
  | _ => Raise (TypeError ("'" ++ type_name v ++ "' object is not subscriptable"))
  end.

End Py.
Import Py.

Notation "x <- m ;; k" := (bind m (fun x => k))
  (at level 61, m at next level, right associativity).

(** ** [_get]: safe path lookup

    The loop of the source, with [cur] as the loop variable: an early
    [return default] ends it. *)
Fixpoint _get_from (cur : value) (path : list string) (default : value) : value :=
  match path with
  | [] => cur
  | p :: path' =>
      match cur with
      | VDict d =>
          match lookup d p with
          | Some v => _get_from v path' default
          | None => default
          end
      | _ => default
      end
  end.

Definition _get (obj : value) (path : list string) (default : value) : value :=
  _get_from obj path default.

(** The path [path] leads from [obj] to [v]: every step is a map that
    holds the next key. *)
Inductive leads_to : value -> list string -> value -> Prop :=
| leads_here : forall v, leads_to v [] v
| leads_step : forall d k ks c v,
    lookup d k = Some c -> leads_to c ks v -> leads_to (VDict d) (k :: ks) v.

(** Some step of the path is not a map, or is a map without the key. *)
Inductive breaks_at : value -> list string -> Prop :=
| breaks_not_map : forall o k ks,
    (forall d, o <> VDict d) -> breaks_at o (k :: ks)
| breaks_absent : forall d k ks,
    lookup d k = None -> breaks_at (VDict d) (k :: ks)
| breaks_later : forall d k ks c,
    lookup d k = Some c -> breaks_at c ks -> breaks_at (VDict d) (k :: ks).


(** ** Strings

    The [str] methods the script calls, over code points below 256. *)

Module Str.

Definition code (c : ascii) : N := N_of_ascii c.

Definition newline : ascii := "010"%char.
Definition space : ascii := " "%char.
Definition dquote : ascii := "034"%char.

(** [c.isspace()], the characters [strip] removes. *)
Definition isspace (c : ascii) : bool :=
  let n := code c in
  ((9 <=? n) && (n <=? 13) || (28 <=? n) && (n <=? 32)
   || (n =? 133) || (n =? 160))%N.

(** [c.lower()] *)
Definition lower_char (c : ascii) : ascii :=
  let n := code c in
  if ((65 <=? n) && (n <=? 90)
      || (192 <=? n) && (n <=? 222) && negb (n =? 215))%N
  then ascii_of_N (n + 32) else c.

Fixpoint lower (s : string) : string :=
  match s with
  | EmptyString => EmptyString
  | String c s' => String (lower_char c) (lower s')
  end.

(** [s.replace(old, new)] for one-character [old] and [new]. *)
Fixpoint replace (old new : ascii) (s : string) : string :=
  match s with
  | EmptyString => EmptyString
  | String c s' =>
      String (if Ascii.eqb c old then new else c) (replace old new s')
  end.

Fixpoint lstrip (s : string) : string :=
  match s with
  | EmptyString => EmptyString
  | String c s' => if isspace c then lstrip s' else s
  end.

Fixpoint rstrip (s : string) : string :=
  match s with
  | EmptyString => EmptyString
  | String c s' =>
      match rstrip s' with
      | EmptyString => if isspace c then EmptyString else str1 c
      | t => String c t
      end
  end.

(** [s.strip()] *)
Definition strip (s : string) : string := lstrip (rstrip s).

(** [c in s] for a character [c]. *)
Fixpoint contains (c : ascii) (s : string) : bool :=
  match s with
  | EmptyString => false
  | String c' s' => Ascii.eqb c' c || contains c s'
  end.

Fixpoint starts_with (p s : string) : bool :=
  match p, s with
  | EmptyString, _ => true
  | String a p', String b s' => Ascii.eqb a b && starts_with p' s'
  | _, EmptyString => false
  end.

(** [p in s] for a str [p]. *)
Fixpoint has_sub (p s : string) : bool :=
  starts_with p s
  || match s with
     | EmptyString => false
     | String _ s' => has_sub p s'
     end.

(** [s[:n]] for [0 <= n]. *)
Definition prefix (n : nat) (s : string) : string := substring 0 n s.

(** [s[-n:]] for [0 < n]. *)
Definition suffix (n : nat) (s : string) : string :=
  substring (String.length s - n) n s.

Fixpoint join (sep : string) (l : list string) : string :=
  match l with
  | [] => ""
  | [x] => x
  | x :: xs => x ++ sep ++ join sep xs
  end.

(** [str(n)] for an int. *)
Definition of_Z (n : Z) : string := NilZero.string_of_int (Z.to_int n).

Definition of_nat (n : nat) : string := of_Z (Z.of_nat n).

Definition hex_digit (n : N) : ascii :=
  if (n <? 10)%N then ascii_of_N (48 + n) else ascii_of_N (87 + n).

(** [c.isprintable()] *)
Definition isprintable (c : ascii) : bool :=
  let n := code c in
  ((32 <=? n) && (n <=? 126) || (161 <=? n) && negb (n =? 173))%N.

Definition escape (quote c : ascii) : string :=
  if Ascii.eqb c quote || Ascii.eqb c "\"%char
  then String "\"%char (str1 c)
  else if Ascii.eqb c "009"%char then "\t"
  else if Ascii.eqb c "010"%char then "\n"
  else if Ascii.eqb c "013"%char then "\r"
  else if isprintable c then str1 c
  else String "\"%char
         (String "x"%char
            (String (hex_digit (code c / 16)) (str1 (hex_digit (code c mod 16))))).

Fixpoint escape_all (quote : ascii) (s : string) : string :=
  match s with
  | EmptyString => EmptyString
  | String c s' => escape quote c ++ escape_all quote s'
  end.

(** [repr(s)] for a str: single quotes, unless the text has one and no
    double quote. *)
Definition repr (s : string) : string :=
  let quote :=
    if contains "'"%char s && negb (contains dquote s)
    then dquote else "'"%char in
  str1 quote ++ escape_all quote s ++ str1 quote.

(** [os.path.basename(p)] *)
Fixpoint basename (p : string) : string :=
  match p with
  | EmptyString => EmptyString
  | String c p' =>
      if contains "/"%char p' then basename p'
      else if Ascii.eqb c "/"%char then p' else p
  end.

(** [os.path.join(a, b)] *)
Definition path_join (a b : string) : string :=
  match b with
  | String "/"%char _ => b
  | _ =>
      match a with
      | EmptyString => b
      | _ => if String.eqb (suffix 1 a) "/" then a ++ b else a ++ "/" ++ b
      end
  end.

End Str.

(** [repr(v)] and [str(v)].  They differ on a str only. *)
Fixpoint repr (v : value) : string :=
  match v with
  | VNone => "None"
  | VBool true => "True"
  | VBool false => "False"
  | VInt n => Str.of_Z n
  | VFloat r => r
  | VStr s => Str.repr s
  | VList l => "[" ++ Str.join ", " (map repr l) ++ "]"
  | VDict d =>
      "{" ++ Str.join ", "
               (map (fun kv => Str.repr (fst kv) ++ ": " ++ repr (snd kv)) d)
          ++ "}"
  end.

Definition str (v : value) : string :=
  match v with
  | VStr s => s
  | _ => repr v
  end.

(** A method of [str] called on [v]: the text of [v], or the
    [AttributeError] every other type answers with. *)
Definition as_str (method : string) (v : value) : result string :=
  match v with
  | VStr s => Ok s
  | _ => Raise (AttributeError (type_name v) method)
  end.

(** [v != s] for a str literal [s]. *)
Definition ne_str (v : value) (s : string) : bool :=
  match v with
  | VStr t => negb (t =? s)%string
  | _ => true
  end.

(** ** Data frames

    A [pandas.DataFrame] as the script uses one: the column labels and the
    rows in order, each row holding a cell per column.  Cells are the
    Python objects the rows were built from.  pandas infers a dtype per
    column and may convert the cells that are not strings: in a column of
    numbers an int beside a float or a null becomes a float and the null
    becomes NaN, when a frame is built and again when frames are
    concatenated.  A cell that is a string is never converted, no other
    cell becomes a string, and a true value stays true.  That conversion
    is not modelled: of a frame built by [frame] or [concat], the
    theorems rely on its string cells (see [texts]), on which cells are
    strings, on its columns and on the number and order of its rows. *)

Module Pd.

Definition record := dict.

Record DataFrame : Type := mkFrame {
  columns : list string;
  rows : list record
}.

Definition nan : value := VFloat "nan".

Definition mem (c : string) (cs : list string) : bool :=
  existsb (String.eqb c) cs.

(** [row[c]]; a cell the row was built without is NaN. *)
Definition cell (r : record) (c : string) : value :=
  match lookup r c with
  | Some v => v
  | None => nan
  end.

(** [row[c]] on a Series that may lack the label. *)
Definition getitem (r : record) (c : string) : result value :=
  match lookup r c with
  | Some v => Ok v
  | None => Raise (KeyError c)
  end.

Definition align (cs : list string) (r : record) : record :=
  map (fun c => (c, cell r c)) cs.

Definition add_labels (cs ks : list string) : list string :=
  fold_left (fun acc k => if mem k acc then acc else (acc ++ [k])%list) ks cs.

(** [pd.DataFrame(records)] for a list of dicts: the columns are the keys
    in the order they are first met. *)
Definition frame (records : list record) : DataFrame :=
  let cs := fold_left (fun acc r => add_labels acc (map fst r)) records [] in
  mkFrame cs (map (align cs) records).

(** [pd.DataFrame()] *)
Definition no_frame : DataFrame := mkFrame [] [].

(** [df.empty]: no row or no column. *)
Definition empty (df : DataFrame) : bool :=
  match rows df, columns df with
  | [], _ => true
  | _, [] => true
  | _, _ => false
  end.

(** [len(df)] *)
Definition len (df : DataFrame) : nat := List.length (rows df).

Fixpoint set_cell (c : string) (v : value) (r : record) : record :=
  match r with
  | [] => [(c, v)]
  | (k, w) :: r' =>
      if String.eqb k c then (k, v) :: r' else (k, w) :: set_cell c v r'
  end.

(** [df[c] = v] for a scalar [v]. *)
Definition set_column (c : string) (v : value) (df : DataFrame) : DataFrame :=
  mkFrame (if mem c (columns df) then columns df
           else (columns df ++ [c])%list)
          (map (set_cell c v) (rows df)).

(** [df[cs]] for a list of labels the frame has. *)
Definition select (cs : list string) (df : DataFrame) : DataFrame :=
  mkFrame cs (map (align cs) (rows df)).

(** [l[:n]]: a negative [n] counts from the end. *)
Definition slice_to {A} (n : Z) (l : list A) : list A :=
  if 0 <=? n then firstn (Z.to_nat n) l
  else firstn (List.length l - Z.to_nat (- n)) l.

(** [df.head(n)] *)
Definition head (n : Z) (df : DataFrame) : DataFrame :=
  mkFrame (columns df) (slice_to n (rows df)).

Fixpoint insert_key (k : string) (ks : list string) : list string :=
  match ks with
  | [] => [k]
  | k' :: ks' =>
      if String.eqb k k' then ks
      else if String.ltb k k' then k :: ks
      else k' :: insert_key k ks'
  end.

Definition key_of (c : string) (r : record) : option string :=
  match cell r c with
  | VStr s => Some s
  | _ => None
  end.

Definition has_key (c k : string) (r : record) : bool :=
  match key_of c r with
  | Some s => String.eqb s k
  | None => false
  end.

(** [df.groupby(c)] over a column of str, as [main] builds the column
    [source_sarif]: the groups in key order, each with its rows in frame
    order.  A row whose key is not a str is in no group here.  pandas
    raises when the frame lacks the column; [build_pdf] looks for the
    column before it groups. *)
Definition groupby (c : string) (df : DataFrame) : list (string * DataFrame) :=
  let keys :=
    fold_left (fun acc r =>
                 match key_of c r with
                 | Some k => insert_key k acc
                 | None => acc
                 end) (rows df) [] in
  map (fun k => (k, mkFrame (columns df) (filter (has_key c k) (rows df)))) keys.

(** [pd.concat(dfs, ignore_index=True)]: the columns in the order they
    are first met, the rows of the frames one frame after the other. *)
Definition concat (dfs : list DataFrame) : DataFrame :=
  let cs := fold_left (fun acc df => add_labels acc (columns df)) dfs [] in
  mkFrame cs (map (align cs) (flat_map rows dfs)).

End Pd.
Import Pd.

(** ** [parse_sarif] *)

(** Line 47: the chain of [or] stops at the first true value. *)
Definition severity_of (props : value) : result value :=
  s1 <- get props "severity" VNone ;;
  if truthy s1 then Ok s1 else
  s2 <- get props "security-severity" VNone ;;
  if truthy s2 then Ok s2 else
  s3 <- get props "cvss" VNone ;;
  Ok (or_ s3 (VStr "")).

(** Line 54: [msg.replace("\n", " ").strip()] *)
Definition normalize (msg : value) : result string :=
  s <- as_str "replace" msg ;;
  Ok (Str.strip (Str.replace Str.newline Str.space s)).

(** The body of the inner loop: the row of one result entry [r]. *)
Definition parse_result (base : string) (tool : value) (r : value)
  : result record :=
  rule_id <- get r "ruleId" (VStr "") ;;
  level <- get r "level" (VStr "") ;;
  let msg := _get r ["message"; "text"] (VStr "") in
  locs <- get r "locations" VNone ;;
  loc0 <- item0 (or_ locs (VList [VDict []])) ;;
  pl <- get loc0 "physicalLocation" VNone ;;
  let ploc := or_ pl (VDict []) in
  let uri := _get ploc ["artifactLocation"; "uri"] (VStr "") in
  rg <- get ploc "region" VNone ;;
  let region := or_ rg (VDict []) in
  line <- get region "startLine" (VStr "") ;;
  col <- get region "startColumn" (VStr "") ;;
  end_line <- get region "endLine" (VStr "") ;;
  pr <- get r "properties" VNone ;;
  let props := or_ pr (VDict []) in
  sev <- severity_of props ;;
  message <- normalize msg ;;
  Ok [ ("source_sarif", VStr base);
       ("tool", tool);
       ("ruleId", rule_id);
       ("level", level);
       ("severity", VStr (str sev));
       ("message", VStr message);
       ("file", uri);
       ("line", line);
       ("col", col);
       ("endLine", end_line) ].

(** The body of the outer loop: the rows of one run. *)
Definition parse_run (base : string) (run : value) : result (list record) :=
  let tool := _get run ["tool"; "driver"; "name"] (VStr base) in
  rs <- get run "results" VNone ;;
  results <- iter (or_ rs (VList [])) ;;
  mapM (parse_result base tool) results.

(** Lines 28 to 61, on the value [json.load] returned. *)
Definition extract (path : string) (data : value) : result DataFrame :=
  rn <- get data "runs" VNone ;;
  runs <- iter (or_ rn (VList [])) ;;
  rows <- mapM (parse_run (Str.basename path)) runs ;;
  Ok (frame (List.concat rows)).

(** What [open] and [json.load] give for a path: the parsed document, or
    the exception raised while reading it. *)
Definition files := string -> result value.

Definition parse_sarif (fs : files) (path : string) : result DataFrame :=
  data <- fs path ;;
  extract path data.

(** ** [make_charts] *)

(** The nested function [bucket], applied to one row. *)
Definition bucket (row : record) : result value :=
  sev <- getitem row "severity" ;;
  if truthy sev && ne_str sev "None" then Ok sev else
  level <- getitem row "level" ;;
  lv <- as_str "lower" (or_ level (VStr "")) ;;
  let lv := Str.lower lv in
  if (lv =? "error")%string then Ok (VStr "HIGH")
  else if (lv =? "warning")%string then Ok (VStr "MEDIUM")
  else if (lv =? "note")%string then Ok (VStr "LOW")
  else Ok (VStr "UNKNOWN").

(** What the script leaves to matplotlib and reportlab, and may raise
    there.  [bar_chart title top path column] counts the values of a
    column ([value_counts], cut to the [top] most frequent when given),
    draws the bars and saves the figure at [path].  [markup text] is
    reportlab reading the text of a [Paragraph] as markup. *)
Record library : Type := mkLibrary {
  bar_chart : string -> option Z -> string -> list value -> result unit;
  markup : string -> result unit
}.

(** Lines 63 to 110.  The [sev_bucket] column is computed for every row
    before anything is drawn; then the two charts are made one after the
    other, the second from the [ruleId] column. *)
Definition make_charts (lib : library) (df : DataFrame) (out_dir : string)
  : result (list string) :=
  if empty df then Ok [] else
  sev_bucket <- mapM bucket (rows df) ;;
  let p1 := Str.path_join out_dir "severity_distribution.png" in
  drawn1 <- bar_chart lib "Severity distribution (best-effort)" None p1
                      sev_bucket ;;
  rule_ids <- mapM (fun row => getitem row "ruleId") (rows df) ;;
  let p2 := Str.path_join out_dir "top_rules.png" in
  drawn2 <- bar_chart lib "Top rules (Top 10)" (Some 10) p2 rule_ids ;;
  Ok [p1; p2].

(** ** [df_to_table_data] *)

Definition cols : list string :=
  ["tool"; "ruleId"; "level"; "severity"; "file"; "line"; "message"].

(** Lines 116 and 117: a column the frame lacks is added, holding [""]. *)
Definition fill_step (df : DataFrame) (c : string) : DataFrame :=
  if mem c (columns df) then df else set_column c (VStr "") df.

(** The loop of lines 115 to 117. *)
Definition fill_missing (df : DataFrame) : DataFrame :=
  fold_left fill_step cols df.

Definition cut_message (msg : string) : string :=
  if (120 <? String.length msg)%nat then Str.prefix 117 msg ++ "..." else msg.

Definition cut_file (filep : string) : string :=
  if (45 <? String.length filep)%nat then "..." ++ Str.suffix 42 filep
  else filep.

(** The body of the loop over [df.iterrows()]. *)
Definition table_row (row : record) : list string :=
  let msg := cut_message (str (cell row "message")) in
  let filep := cut_file (str (cell row "file")) in
  [ str (cell row "tool");
    str (cell row "ruleId");
    str (cell row "level");
    str (cell row "severity");
    filep;
    str (cell row "line");
    msg ].

Definition df_to_table_data (df : DataFrame) (max_rows : Z)
  : list (list string) :=
  let df := fill_missing df in
  let df := head max_rows (select cols df) in
  cols :: map table_row (rows df).

(** ** [build_pdf]

    The story handed to [doc.build], one constructor per reportlab
    flowable.  The table style is a constant of the script and is not
    carried. *)

Inductive flowable : Type :=
| Paragraph (text style : string)
| Spacer (w h : Z)
| Image (path : string) (w h : Z)
| PageBreak
| Table (data : list (list string)) (repeatRows : Z) (colWidths : list Z).

Definition truncation_note : flowable :=
  Paragraph "Note: table is truncated to the first 60 rows for readability."
            "Italic".

Definition no_findings : flowable :=
  Paragraph "No findings found in provided SARIF files." "Normal".

(** Line 167: the text of a section's heading, the name put in as it
    is. *)
Definition section_title (sarif_name : string) (df_s : DataFrame) : string :=
  "Findings from: <b>" ++ sarif_name ++ "</b> (count: "
  ++ Str.of_nat (len df_s) ++ ")".

(** The body of the loop over [df_all.groupby("source_sarif")].  The
    heading holds the file name, so building its [Paragraph] may raise;
    the other paragraphs of the report hold fixed text, digits and the
    time. *)
Definition section (lib : library) (sarif_name : string) (df_s : DataFrame)
  : result (list flowable) :=
  read <- markup lib (section_title sarif_name df_s) ;;
  Ok [ Paragraph (section_title sarif_name df_s) "Heading2";
       Spacer 1 6;
       Table (df_to_table_data df_s 60) 1 [70; 85; 45; 55; 110; 35; 120];
       Spacer 1 12;
       truncation_note;
       PageBreak ].

(** Lines 144 to 147.  [now] is [datetime.utcnow().isoformat()]. *)
Definition heading (now : string) : list flowable :=
  [ Paragraph "Security Findings Report" "Title";
    Spacer 1 8;
    Paragraph ("Generated: " ++ now ++ "Z") "Normal";
    Spacer 1 12 ].

(** The story handed to [doc.build].  [on_disk] is [os.path.exists].
    Grouping by a column the frame lacks raises. *)
Definition build_pdf (lib : library) (on_disk : string -> bool) (now : string)
    (df_all : DataFrame) (pdf_path : string) (charts : list string)
  : result (list flowable) :=
  if empty df_all then Ok (heading now ++ [no_findings])%list
  else
    let total_line :=
      Paragraph ("Total findings: <b>" ++ Str.of_nat (len df_all) ++ "</b>")
                "Normal" in
    let images :=
      flat_map (fun ch =>
                  if on_disk ch then [Image ch 520 280; Spacer 1 10] else [])
               charts in
    if mem "source_sarif" (columns df_all) then
      sections <- mapM (fun g => section lib (fst g) (snd g))
                       (groupby "source_sarif" df_all) ;;
      Ok (heading now ++ [total_line; Spacer 1 10] ++ images ++ [PageBreak]
          ++ List.concat sections)%list
    else Raise (KeyError "source_sarif").

(** ** [main] *)

(** Line 188: [sorted(set(top + deep))] over what the two globs found,
    and line 190. *)
Definition discover (top deep : list string) : list string :=
  filter (fun s => negb (Str.has_sub "/.git/" s)
                   && negb (Str.has_sub "node_modules" s))
         (fold_left (fun acc s => insert_key s acc) (top ++ deep)%list []).

Definition warning (s : string) (e : exn) : string :=
  "[WARN] Failed to parse " ++ s ++ ": " ++ exn_str e.

(** One turn of the loop of lines 196 to 202, on the list [dfs] and the
    lines printed so far. *)
Definition visit (fs : files) (st : list DataFrame * list string) (s : string)
  : list DataFrame * list string :=
  match parse_sarif fs s with
  | Ok df => if empty df then st else ((fst st ++ [df])%list, snd st)
  | Raise e => (fst st, (snd st ++ [warning s e])%list)
  end.

Definition collect (fs : files) (sarifs : list string)
  : list DataFrame * list string :=
  fold_left (visit fs) sarifs ([], []).

(** Line 204: the dataset, all the frames in one. *)
Definition aggregate (dfs : list DataFrame) : DataFrame :=
  match dfs with
  | [] => no_frame
  | _ => concat dfs
  end.

Record outcome : Type := mkOutcome {
  dataset : DataFrame;
  charts : list string;
  story : list flowable;
  stdout : list string
}.

(** Lines 192 to 215.  [Ok] is a run that reaches the end of [main], and
    so exits with status 0; [Raise] is a run an exception ends.  The CSV
    export is [df_all] written out, the report is [story] built. *)
Definition run (fs : files) (lib : library) (on_disk : string -> bool)
    (now : string) (sarifs : list string) : result outcome :=
  let out_dir := "reports" in
  let (dfs, warnings) := collect fs sarifs in
  let df_all := aggregate dfs in
  let csv_path := Str.path_join out_dir "findings.csv" in
  charts <- make_charts lib df_all out_dir ;;
  let pdf_path := Str.path_join out_dir "security-report.pdf" in
  story <- build_pdf lib on_disk now df_all pdf_path charts ;;
  let summary :=
    [ "Found SARIF files: " ++ Str.of_nat (List.length sarifs);
      "Findings: " ++ Str.of_nat (len df_all);
      "Wrote: " ++ csv_path;
      "Wrote: " ++ pdf_path ] in
  Ok (mkOutcome df_all charts story (List.app warnings summary)).

Definition main (fs : files) (lib : library) (on_disk : string -> bool)
    (now : string) (top deep : list string) : result outcome :=
  run fs lib on_disk now (discover top deep).

(** ** The properties, in the words of the specification

    Definitions the theorems compare the code with. *)

(** [x.get(k)] on a dict. *)
Definition field (d : dict) (k : string) : value :=
  match lookup d k with
  | Some v => v
  | None => VNone
  end.

Definition is_dict (v : value) : bool :=
  match v with VDict _ => true | _ => false end.

Definition is_str (v : value) : bool :=
  match v with VStr _ => true | _ => false end.

(** A field is absent (or holds a false value, which [or] treats alike),
    or it has the shape [p]. *)
Definition absent_or (p : value -> bool) (v : value) : bool :=
  negb (truthy v) || p v.

(** The shape the extractor relies on, field by field. *)
Definition region_holder_ok (v : value) : bool :=
  match v with
  | VDict p => absent_or is_dict (field p "region")
  | _ => false
  end.

Definition locations_ok (v : value) : bool :=
  match v with
  | VList (VDict l :: _) => absent_or region_holder_ok (field l "physicalLocation")
  | _ => false
  end.

Definition entry_ok (r : value) : bool :=
  match r with
  | VDict d =>
      absent_or locations_ok (field d "locations")
      && absent_or is_dict (field d "properties")
      && is_str (_get r ["message"; "text"] (VStr ""))
  | _ => false
  end.

Definition run_ok (run : value) : bool :=
  match run with
  | VDict d =>
      absent_or (fun v => match v with
                          | VList rs => forallb entry_ok rs
                          | _ => false
                          end) (field d "results")
  | _ => false
  end.

Definition doc_ok (data : value) : bool :=
  match data with
  | VDict d =>
      absent_or (fun v => match v with
                          | VList runs => forallb run_ok runs
                          | _ => false
                          end) (field d "runs")
  | _ => false
  end.

(** The columns of an extracted row. *)
Definition finding_columns : list string :=
  ["source_sarif"; "tool"; "ruleId"; "level"; "severity"; "message";
   "file"; "line"; "col"; "endLine"].

(** [r] is a result entry of a run of the document [data]. *)
Definition entry_of (data r : value) : Prop :=
  exists rn runs run rs results,
    get data "runs" VNone = Ok rn
    /\ iter (or_ rn (VList [])) = Ok runs
    /\ In run runs
    /\ get run "results" VNone = Ok rs
    /\ iter (or_ rs (VList [])) = Ok results
    /\ In r results.

(** The severity keys, in the order they are tried. *)
Definition severity_keys : list string :=
  ["severity"; "security-severity"; "cvss"].

(** C2 as the specification words it: the value of the first key that is
    present. *)
Fixpoint first_present (keys : list string) (props : dict) : value :=
  match keys with
  | [] => VStr ""
  | k :: keys' =>
      match lookup props k with
      | Some v => v
      | None => first_present keys' props
      end
  end.

(** What the code does: the value of the first key that holds a true
    value. *)
Fixpoint first_true (keys : list string) (props : dict) : value :=
  match keys with
  | [] => VStr ""
  | k :: keys' =>
      match lookup props k with
      | Some v => if truthy v then v else first_true keys' props
      | None => first_true keys' props
      end
  end.

(** Every character of [s] satisfies [p]. *)
Fixpoint all_chars (p : ascii -> bool) (s : string) : bool :=
  match s with
  | EmptyString => true
  | String c s' => p c && all_chars p s'
  end.

Definition first_char (s : string) : option ascii :=
  match s with
  | EmptyString => None
  | String c _ => Some c
  end.

Fixpoint last_char (s : string) : option ascii :=
  match s with
  | EmptyString => None
  | String c EmptyString => Some c
  | String _ s' => last_char s'
  end.

Definition not_space (o : option ascii) : Prop :=
  match o with
  | Some c => Str.isspace c = false
  | None => True
  end.

(** [t] is [s] without its leading and trailing whitespace. *)
Definition trimmed (s t : string) : Prop :=
  exists l r,
    s = l ++ t ++ r
    /\ all_chars Str.isspace l = true
    /\ all_chars Str.isspace r = true
    /\ not_space (first_char t)
    /\ not_space (last_char t).

(** Two characters that differ by case at most, for the letters A to Z. *)
Definition same_letter (a b : ascii) : bool :=
  Ascii.eqb a b
  || (let n := Str.code a in let m := Str.code b in
      ((65 <=? n) && (n <=? 90) && (m =? n + 32)
       || (65 <=? m) && (m <=? 90) && (n =? m + 32))%N).

(** [s] is the word [w] up to the case of its letters. *)
Fixpoint is_word (w s : string) : bool :=
  match w, s with
  | EmptyString, EmptyString => true
  | String a w', String b s' => same_letter a b && is_word w' s'
  | _, _ => false
  end.

(** The classifier's policy of section 4.2, first matching rule first. *)
Definition classify (raw_severity raw_level : value) : value :=
  if truthy raw_severity && ne_str raw_severity "None" then raw_severity
  else
    let word := match raw_level with VStr s => s | _ => "" end in
    if is_word "error" word then VStr "HIGH"
    else if is_word "warning" word then VStr "MEDIUM"
    else if is_word "note" word then VStr "LOW"
    else VStr "UNKNOWN".

(** The text a cell of column [c] is formatted from: a column the frame
    lacks counts as the empty string. *)
Definition source_text (df : DataFrame) (r : record) (c : string) : string :=
  if mem c (columns df) then str (cell r c) else "".

(** [out] is [text] cut to at most 120 characters: a longer text keeps
    its first 117 and ends in the ellipsis. *)
Definition message_cut (text out : string) : Prop :=
  (String.length text <= 120)%nat /\ out = text
  \/ (120 < String.length text)%nat
     /\ exists kept rest,
          text = kept ++ rest /\ String.length kept = 117%nat
          /\ out = kept ++ "...".

(** [out] is [text] cut to at most 45 characters: a longer path keeps
    its last 42 after the ellipsis. *)
Definition file_cut (text out : string) : Prop :=
  (String.length text <= 45)%nat /\ out = text
  \/ (45 < String.length text)%nat
     /\ exists front kept,
          text = front ++ kept /\ String.length kept = 42%nat
          /\ out = "..." ++ kept.

(** One formatted row against the frame row it comes from. *)
Definition formatted (df : DataFrame) (r : record) (out : list string) : Prop :=
  exists tool rule level sev filep line msg,
    out = [tool; rule; level; sev; filep; line; msg]
    /\ tool = source_text df r "tool"
    /\ rule = source_text df r "ruleId"
    /\ level = source_text df r "level"
    /\ sev = source_text df r "severity"
    /\ file_cut (source_text df r "file") filep
    /\ line = source_text df r "line"
    /\ message_cut (source_text df r "message") msg.

(** The document at [s] does not parse. *)
Definition fails (fs : files) (s : string) : bool :=
  negb (is_ok (parse_sarif fs s)).

(** The warning line of a failing document. *)
Definition warning_for (fs : files) (s : string) : string :=
  match parse_sarif fs s with
  | Raise e => warning s e
  | Ok _ => ""
  end.

Definition is_table (f : flowable) : bool :=
  match f with Table _ _ _ => true | _ => false end.

Definition is_image (f : flowable) : bool :=
  match f with Image _ _ _ => true | _ => false end.

(** What one document adds to the list of frames, and to the lines
    printed. *)
Definition kept_of (fs : files) (s : string) : list DataFrame :=
  match parse_sarif fs s with
  | Ok df => if empty df then [] else [df]
  | Raise _ => []
  end.

Definition warns_of (fs : files) (s : string) : list string :=
  match parse_sarif fs s with
  | Ok _ => []
  | Raise e => [warning s e]
  end.

(** A frame of extracted rows: the ten columns, at least one row, every
    row keyed by the columns. *)
Definition finding_frame (df : DataFrame) : Prop :=
  exists records,
    records <> []
    /\ df = mkFrame finding_columns records
    /\ Forall (fun r : record => map fst r = finding_columns) records.

(** Auxiliary notions of the proofs. *)

(** Lower-casing sends exactly the two cases of a letter to the small
    one. *)
Definition folds_to (a : ascii) : Prop :=
  forall b, Ascii.eqb (Str.lower_char b) a = same_letter a b.

(** Every character of [w] is such a letter. *)
Fixpoint all_fold (w : string) : Prop :=
  match w with
  | EmptyString => True
  | String a w' => folds_to a /\ all_fold w'
  end.

(** The character map of [replace("\n", " ")]. *)
Definition newline_to_space (c : ascii) : ascii :=
  if Ascii.eqb c Str.newline then Str.space else c.

(** ** Sample documents and frames *)

Definition entry_zero_severity : value :=
  VDict [("ruleId", VStr "SQL01");
         ("properties", VDict [("severity", VInt 0); ("cvss", VStr "9.8")])].

Definition doc_numeric_level : value :=
  VDict [("runs", VList [VDict [("results",
    VList [VDict [("ruleId", VStr "SQL01"); ("level", VInt 5)]])]])].

Definition doc_two_line_message : value :=
  VDict [("runs", VList [VDict [("results",
    VList [VDict [("ruleId", VStr "SQL01"); ("level", VStr "error");
                  ("message",
                   VDict [("text",
                           VStr (" SQL injection" ++ str1 Str.newline
                                 ++ "found" ++ str1 Str.newline))])]])]])].

Definition long_path_frame : DataFrame :=
  mkFrame ["file"; "line"]
    [ [ ("file", VStr "src/main/java/com/example/service/impl/UserAccountServiceImpl.java");
        ("line", VInt 12) ];
      [ ("file", VStr "a.py"); ("line", VInt 3) ];
      [ ("file", VStr "b.py"); ("line", VInt 4) ] ].

Definition no_results_doc : value :=
  VDict [("runs", VList [VDict [("results", VList [])]])].

Definition only_empty_documents : files :=
  fun _ => Ok no_results_doc.

Definition one_finding_doc (rule : string) : value :=
  VDict [("runs", VList [VDict [("results",
    VList [VDict [("ruleId", VStr rule); ("level", VStr "error")]])]])].

Definition second_is_invalid : files :=
  fun p =>
    if (p =? "a.sarif")%string then Ok (one_finding_doc "SQL01")
    else if (p =? "c.sarif")%string then Ok (one_finding_doc "XSS02")
    else Raise (LoadError "Expecting value: line 1 column 1 (char 0)").


Definition sample_finding : record :=
  [ ("source_sarif", VStr "a.sarif"); ("tool", VStr "semgrep");
    ("ruleId", VStr "SQL01"); ("level", VStr "error"); ("severity", VStr "");
    ("message", VStr "SQL injection found"); ("file", VStr "app/db.py");
    ("line", VInt 12); ("col", VInt 4); ("endLine", VInt 12) ].

Definition sixty_one_findings : DataFrame :=
  mkFrame finding_columns (repeat sample_finding 61).

Definition two_documents : files :=
  fun p =>
    if (p =? "A.sarif")%string
    then Ok (VDict [("runs", VList [VDict [("results",
           VList [VDict [("ruleId", VStr "SQL01"); ("level", VStr "error");
                         ("message",
                          VDict [("text",
                                  VStr ("SQL injection" ++ str1 Str.newline
                                        ++ "found"))])]])]])])
    else Ok no_results_doc.

(** ** Further notions

    Definitions for the properties beyond the claims. *)

(** The runs a document is iterated over, and the result entries of a
    run: what the two [for] loops of [parse_sarif] draw, nothing when the
    field cannot be iterated. *)
Definition runs_of (data : value) : list value :=
  match get data "runs" VNone with
  | Ok rn => match iter (or_ rn (VList [])) with
             | Ok runs => runs
             | Raise _ => []
             end
  | Raise _ => []
  end.

Definition results_of (run : value) : list value :=
  match get run "results" VNone with
  | Ok rs => match iter (or_ rs (VList [])) with
             | Ok results => results
             | Raise _ => []
             end
  | Raise _ => []
  end.

(** The result entries of a document in document order, each with its
    run. *)
Definition entries (data : value) : list (value * value) :=
  flat_map (fun run => map (fun r => (run, r)) (results_of run)) (runs_of data).

(** The rows a document adds to the dataset. *)
Definition rows_of (fs : files) (s : string) : list record :=
  match parse_sarif fs s with
  | Ok df => rows df
  | Raise _ => []
  end.

(** A severity the classifier passes through. *)
Definition usable (sev : value) : bool := truthy sev && ne_str sev "None".

(** A level the classifier can read: a string, or a false value. *)
Definition readable (level : value) : bool := negb (truthy level) || is_str level.

(** Strictly increasing, neighbour by neighbour. *)
Fixpoint increasing (ks : list string) : Prop :=
  match ks with
  | [] => True
  | k :: ks' =>
      match ks' with
      | [] => True
      | k' :: _ => String.ltb k k' = true
      end /\ increasing ks'
  end.

Fixpoint total (ns : list nat) : nat :=
  match ns with
  | [] => 0%nat
  | n :: ns' => (n + total ns')%nat
  end.

(** ** [app/server.py]

    The query string of a request as its parameters in order;
    [request.args.get] takes the first value of a key. *)

Module Server.

Definition args := list (string * string).

Fixpoint args_get (a : args) (k dflt : string) : string :=
  match a with
  | [] => dflt
  | (k', v) :: a' => if (k' =? k)%string then v else args_get a' k dflt
  end.

(** The view [hello]: the body of the response. *)
Definition hello (a : args) : string :=
  let user_input := args_get a "name" "Guest" in
  "<h1>Hello, " ++ user_input ++ "!</h1>".

End Server.

(** The frame an extraction returns, the empty frame when it raises. *)
Definition extracted (path : string) (data : value) : DataFrame :=
  match extract path data with
  | Ok df => df
  | Raise _ => no_frame
  end.

Definition two_runs_doc : value :=
  VDict [("version", VStr "2.1.0");
         ("runs", VList [
            VDict [("tool", VDict [("driver", VDict [("name", VStr "semgrep")])]);
                   ("results", VList [
                      VDict [("ruleId", VStr "SQL01"); ("level", VStr "error");
                             ("message", VDict [("text", VStr "SQL injection")])];
                      VDict [("ruleId", VStr "XSS02"); ("level", VStr "Warning");
                             ("properties", VDict [("cvss", VFloat "6.1")])] ])];
            VDict [("results", VList [
                      VDict [("ruleId", VStr "TLS03"); ("level", VInt 3);
                             ("properties", VDict [("severity", VStr "LOW")])] ])] ])].


Definition has_str_key (c : string) (r : record) : bool :=
  match key_of c r with
  | Some _ => true
  | None => false
  end.

Definition is_note (f : flowable) : bool :=
  match f with
  | Paragraph _ style => String.eqb style "Italic"
  | _ => false
  end.

Definition long_path_frame_with_source : DataFrame :=
  mkFrame ["source_sarif"; "file"; "line"; "endLine"]
    [ [ ("source_sarif", VStr "a.sarif");
        ("file", VStr "src/main/java/com/example/service/impl/UserAccountServiceImpl.java");
        ("line", VInt 12); ("endLine", VInt 14) ];
      [ ("source_sarif", VStr "a.sarif");
        ("file", VStr "a.py"); ("line", VInt 3); ("endLine", VInt 3) ];
      [ ("source_sarif", VStr "b.sarif");
        ("file", VStr "b.py"); ("line", VInt 4); ("endLine", VNone) ] ].

Definition one_bad_entry_doc : value :=
  VDict [("runs", VList [VDict [("results",
    VList [VDict [("ruleId", VStr "SQL01"); ("level", VStr "error");
                  ("message", VDict [("text", VStr "SQL injection")])];
           VDict [("ruleId", VStr "XSS02");
                  ("message", VDict [("text", VInt 5)])]])]])].

Definition bad_entry_file : files := fun _ => Ok one_bad_entry_doc.

(** The string cells of a row, column by column: what pandas keeps as it
    is when it builds or concatenates frames. *)
Definition text_of (v : value) : option string :=
  match v with
  | VStr s => Some s
  | _ => None
  end.

Definition texts (row : record) : list (option string) :=
  map (fun c => text_of (cell row c)) finding_columns.

(** A library that draws every chart and reads every heading, as
    matplotlib and reportlab do on the sample documents. *)
Definition accepting : library :=
  mkLibrary (fun _ _ _ _ => Ok tt) (fun _ => Ok tt).


(** The story of a report that was built. *)
Definition story_of (r : result (list flowable)) : list flowable :=
  match r with
  | Ok story => story
  | Raise _ => []
  end.

(** A library that draws every chart and reads every heading but one
    that holds [<y], which is no tag of reportlab's markup. *)
Definition no_tag_y : library :=
  mkLibrary (fun _ _ _ _ => Ok tt)
            (fun text =>
               if Str.has_sub "<y" text
               then Raise (ValueError "paragraph text is not well-formed markup")
               else Ok tt).

Definition numeric_level_then_invalid : files :=
  fun p =>
    if (p =? "a.sarif")%string then Ok doc_numeric_level
    else Raise (LoadError "Expecting value: line 1 column 1 (char 0)").

(** * Proofs *)

(** ** Safe path lookup *)

Lemma leads_to_fun : forall o ks v w,
  leads_to o ks v -> leads_to o ks w -> v = w.
Proof.
  intros o ks v w H; revert w.
  induction H as [u | d k ks c v Hl Hc IH]; intros w Hw.
  - inversion Hw; reflexivity.
  - inversion Hw; subst.
    match goal with
    | [ E : lookup d k = Some ?c' |- _ ] =>
        rewrite Hl in E; injection E as <-
    end.
    now apply IH.
Qed.

Lemma leads_or_breaks : forall ks o,
  (exists v, leads_to o ks v) \/ breaks_at o ks.
Proof.
  induction ks as [| k ks IH]; intros o.
  - left; exists o; constructor.
  - destruct o; try (right; apply breaks_not_map; intros d' E; discriminate E).
    destruct (lookup d k) as [c |] eqn:Hl.
    + destruct (IH c) as [[v Hv] | Hb].
      * left; exists v; econstructor; eassumption.
      * right; eapply breaks_later; eassumption.
    + right; now apply breaks_absent.
Qed.

Lemma breaks_excludes_leads : forall o ks v,
  breaks_at o ks -> leads_to o ks v -> False.
Proof.
  intros o ks v Hb; revert v.
  induction Hb as [o k ks Hn | d k ks Hl | d k ks c Hl Hb IH]; intros v Hv;
    inversion Hv; subst.
  - eapply Hn; reflexivity.
  - congruence.
  - match goal with
    | [ E : lookup d k = Some ?c' |- _ ] =>
        rewrite Hl in E; injection E as <-
    end.
    eapply IH; eassumption.
Qed.

Lemma _get_leads : forall o ks v dflt,
  leads_to o ks v -> _get o ks dflt = v.
Proof.
  intros o ks v dflt H; unfold _get.
  induction H as [u | d k ks c v Hl Hc IH]; simpl.
  - reflexivity.
  - now rewrite Hl.
Qed.

Lemma _get_breaks : forall o ks dflt,
  breaks_at o ks -> _get o ks dflt = dflt.
Proof.
  intros o ks dflt H; unfold _get.
  induction H as [o k ks Hn | d k ks Hl | d k ks c Hl Hb IH]; simpl.
  - destruct o; try reflexivity. exfalso; eapply Hn; reflexivity.
  - now rewrite Hl.
  - now rewrite Hl.
Qed.

(** C9.  Safe path lookup: [_get] descends key by key.  Either every step
    is a map holding the next key, and the result is the value at the end
    of the path; or some step is not a map or lacks its key, and the
    result is the default.  The two cases exclude each other. *)
Theorem get_safe_path_lookup : forall obj path default,
  (exists v, leads_to obj path v /\ ~ breaks_at obj path
             /\ _get obj path default = v)
  \/ (breaks_at obj path /\ (forall v, ~ leads_to obj path v)
      /\ _get obj path default = default).
Proof.
  intros obj path default.
  destruct (leads_or_breaks path obj) as [[v Hv] | Hb].
  - left; exists v; repeat split; trivial.
    + intros Hb; eapply breaks_excludes_leads; eassumption.
    + now apply _get_leads.
  - right; repeat split; trivial.
    + intros v Hv; eapply breaks_excludes_leads; eassumption.
    + now apply _get_breaks.
Qed.

(** ** Results and lookups *)

Lemma get_dict : forall d k dflt,
  get (VDict d) k dflt = Ok (match lookup d k with Some v => v | None => dflt end).
Proof. reflexivity. Qed.

Lemma get_field : forall d k, get (VDict d) k VNone = Ok (field d k).
Proof. reflexivity. Qed.

Lemma get_ok_dict : forall v k dflt w,
  get v k dflt = Ok w -> exists d, v = VDict d.
Proof. intros [] k dflt w H; try discriminate H. now exists d. Qed.

Lemma is_ok_mapM : forall A B (f : A -> result B) l,
  is_ok (mapM f l) = forallb (fun x => is_ok (f x)) l.
Proof.
  intros A B f l; induction l as [| x xs IH]; simpl; trivial.
  destruct (f x); simpl; trivial.
  rewrite <- IH. now destruct (mapM f xs).
Qed.

Lemma forallb_ext : forall A (f g : A -> bool) l,
  (forall x, f x = g x) -> forallb f l = forallb g l.
Proof.
  intros A f g l H; induction l as [| x xs IH]; simpl; trivial.
  now rewrite H, IH.
Qed.

Lemma is_ok_true : forall A (m : result A),
  is_ok m = true <-> exists a, m = Ok a.
Proof.
  intros A [a | e]; simpl; split; intros H; trivial.
  - now exists a.
  - discriminate H.
  - destruct H as [a H]; discriminate H.
Qed.

Lemma or_falsy : forall v w, truthy v = false -> or_ v w = w.
Proof. intros v w H; unfold or_; now rewrite H. Qed.

Lemma or_truthy : forall v w, truthy v = true -> or_ v w = v.
Proof. intros v w H; unfold or_; now rewrite H. Qed.

(** ** The extractor raises exactly off the expected shape *)

Lemma is_ok_severity_of : forall props,
  is_ok (severity_of props) = is_dict props.
Proof.
  intros []; trivial. unfold severity_of. rewrite !get_dict; simpl.
  destruct (truthy _); trivial. destruct (truthy _); trivial.
Qed.

Lemma is_ok_bind : forall A B (m : result A) (f : A -> result B),
  is_ok (bind m f) = match m with Ok a => is_ok (f a) | Raise _ => false end.
Proof. now intros A B []. Qed.

(** From the region on: lines 41 to 59. *)
Lemma is_ok_after_region : forall ploc props msg (k : value -> value -> value -> value -> string -> record),
  is_ok (rg <- get ploc "region" VNone ;;
         line <- get (or_ rg (VDict [])) "startLine" (VStr "") ;;
         col <- get (or_ rg (VDict [])) "startColumn" (VStr "") ;;
         end_line <- get (or_ rg (VDict [])) "endLine" (VStr "") ;;
         sev <- severity_of props ;;
         message <- normalize msg ;;
         Ok (k line col end_line sev message))
  = region_holder_ok ploc && is_dict props && is_str msg.
Proof.
  intros ploc props msg k.
  destruct ploc as [| | | | | |p]; trivial.
  rewrite get_field. cbn [bind region_holder_ok]. unfold absent_or.
  destruct (truthy (field p "region")) eqn:Hr.
  - rewrite or_truthy by assumption. cbn [negb orb].
    destruct (field p "region"); trivial.
    cbn [get bind is_dict andb]. rewrite is_ok_bind.
    destruct props; trivial. destruct (severity_of (VDict d0)) eqn:Hs.
    + now destruct msg.
    + pose proof (is_ok_severity_of (VDict d0)) as H. rewrite Hs in H. discriminate H.
  - rewrite or_falsy by assumption. cbn [negb orb get bind andb]. rewrite is_ok_bind.
    destruct props; trivial. destruct (severity_of (VDict d)) eqn:Hs.
    + now destruct msg.
    + pose proof (is_ok_severity_of (VDict d)) as H. rewrite Hs in H. discriminate H.
Qed.

Lemma is_ok_parse_result : forall base tool r,
  is_ok (parse_result base tool r) = entry_ok r.
Proof.
  intros base tool r. destruct r as [| | | | | |d]; trivial.
  unfold parse_result, entry_ok.
  set (msg := _get (VDict d) ["message"; "text"] (VStr "")).
  cbn [get bind]. fold (field d "locations") (field d "properties").
  set (props := or_ (field d "properties") (VDict [])).
  assert (Hp : is_dict props = absent_or is_dict (field d "properties")).
  { unfold props, absent_or, or_. now destruct (truthy _). }
  rewrite <- Hp.
  unfold absent_or at 1.
  destruct (truthy (field d "locations")) eqn:Hl.
  - rewrite or_truthy by assumption. cbn [negb orb].
    destruct (field d "locations") as [| | | |s|l|l] eqn:El; try discriminate Hl;
      try reflexivity.
    + destruct s; reflexivity.
    + destruct l as [| x l']; [discriminate Hl |].
      cbn [item0 bind locations_ok].
      destruct x as [| | | | | |p]; try reflexivity.
      rewrite get_field. cbn [bind].
      match goal with
      | [ |- is_ok (rg <- _ ;; line <- _ ;; col <- _ ;; el <- _ ;; sev <- _ ;;
                    message <- _ ;; Ok (@?k line col el sev message)) = _ ] =>
          rewrite (is_ok_after_region _ props msg k)
      end.
      unfold absent_or, or_.
      now destruct (truthy (field p "physicalLocation")).
  - rewrite or_falsy by assumption. cbn [negb orb item0 bind get].
    match goal with
    | [ |- is_ok (rg <- _ ;; line <- _ ;; col <- _ ;; el <- _ ;; sev <- _ ;;
                  message <- _ ;; Ok (@?k line col el sev message)) = _ ] =>
        rewrite (is_ok_after_region _ props msg k)
    end.
    reflexivity.
Qed.

Lemma is_ok_parse_run : forall base run,
  is_ok (parse_run base run) = run_ok run.
Proof.
  intros base run. destruct run as [| | | | | |d]; trivial.
  unfold parse_run, run_ok. rewrite get_field. cbn [bind].
  unfold absent_or.
  destruct (truthy (field d "results")) eqn:Hr.
  - rewrite or_truthy by assumption. cbn [negb orb].
    destruct (field d "results") as [| | | |s|l|l]; try discriminate Hr;
      try reflexivity.
    + destruct s as [| c s]; [discriminate Hr | reflexivity].
    + cbn [iter bind]. rewrite is_ok_mapM.
      apply forallb_ext; intros r; apply is_ok_parse_result.
    + destruct l as [| [k v] l]; [discriminate Hr | reflexivity].
  - rewrite or_falsy by assumption. reflexivity.
Qed.

Lemma is_ok_extract : forall path data,
  is_ok (extract path data) = doc_ok data.
Proof.
  intros path data. destruct data as [| | | | | |d]; trivial.
  unfold extract, doc_ok. rewrite get_field. cbn [bind].
  unfold absent_or.
  destruct (truthy (field d "runs")) eqn:Hr.
  - rewrite or_truthy by assumption. cbn [negb orb].
    destruct (field d "runs") as [| | | |s|l|l]; try discriminate Hr;
      try reflexivity.
    + destruct s as [| c s]; [discriminate Hr | reflexivity].
    + cbn [iter bind]. rewrite is_ok_bind.
      rewrite <- (forallb_ext _ _ _ l (is_ok_parse_run (Str.basename path))).
      rewrite <- is_ok_mapM. now destruct (mapM _ l).
    + destruct l as [| [k v] l]; [discriminate Hr | reflexivity].
  - rewrite or_falsy by assumption. reflexivity.
Qed.

(** ** What an extracted row holds *)

Lemma bind_ok : forall A B (m : result A) (f : A -> result B) b,
  bind m f = Ok b -> exists a, m = Ok a /\ f a = Ok b.
Proof.
  intros A B [a | e] f b H; simpl in H; [| discriminate H].
  now exists a.
Qed.

Ltac bind_inv H :=
  let a := fresh "a" in
  let Ha := fresh "Ha" in
  apply bind_ok in H; destruct H as [a [Ha H]].

Lemma parse_result_inv : forall base tool r row,
  parse_result base tool r = Ok row ->
  exists d loc0 pl rg sev m,
    r = VDict d
    /\ item0 (or_ (field d "locations") (VList [VDict []])) = Ok loc0
    /\ get loc0 "physicalLocation" VNone = Ok pl
    /\ get (or_ pl (VDict [])) "region" VNone = Ok rg
    /\ is_dict (or_ rg (VDict [])) = true
    /\ severity_of (or_ (field d "properties") (VDict [])) = Ok sev
    /\ _get r ["message"; "text"] (VStr "") = VStr m
    /\ row =
       [ ("source_sarif", VStr base);
         ("tool", tool);
         ("ruleId", _get r ["ruleId"] (VStr ""));
         ("level", _get r ["level"] (VStr ""));
         ("severity", VStr (str sev));
         ("message", VStr (Str.strip (Str.replace Str.newline Str.space m)));
         ("file", _get (or_ pl (VDict [])) ["artifactLocation"; "uri"] (VStr ""));
         ("line", _get (or_ rg (VDict [])) ["startLine"] (VStr ""));
         ("col", _get (or_ rg (VDict [])) ["startColumn"] (VStr ""));
         ("endLine", _get (or_ rg (VDict [])) ["endLine"] (VStr "")) ].
Proof.
  intros base tool r row H. unfold parse_result in H.
  bind_inv H. destruct (get_ok_dict _ _ _ _ Ha) as [d ->].
  rewrite get_dict in Ha; injection Ha as <-.
  bind_inv H. rewrite get_dict in Ha; injection Ha as <-.
  bind_inv H. rewrite get_field in Ha; injection Ha as <-.
  bind_inv H. rename a into loc0, Ha into Hloc.
  bind_inv H. rename a into pl, Ha into Hpl.
  bind_inv H. rename a into rg, Ha into Hrg.
  bind_inv H. destruct (get_ok_dict _ _ _ _ Ha) as [g Hg].
  rewrite Hg in *. rewrite get_dict in Ha; injection Ha as <-.
  bind_inv H. rewrite get_dict in Ha; injection Ha as <-.
  bind_inv H. rewrite get_dict in Ha; injection Ha as <-.
  bind_inv H. rewrite get_field in Ha; injection Ha as <-.
  bind_inv H. rename a into sev, Ha into Hsev.
  bind_inv H. unfold normalize in Ha. bind_inv Ha.
  injection Ha as <-. injection H as <-.
  destruct (_get (VDict d) ["message"; "text"] (VStr "")) as [| | | |m| |] eqn:Hm;
    try discriminate Ha0.
  injection Ha0 as <-.
  exists d, loc0, pl, rg, sev, m. rewrite Hg.
  repeat split; trivial.
Qed.

Lemma mapM_Forall2 : forall A B (f : A -> result B) l l',
  mapM f l = Ok l' -> Forall2 (fun x y => f x = Ok y) l l'.
Proof.
  intros A B f l; induction l as [| x xs IH]; intros l' H; simpl in H.
  - injection H as <-; constructor.
  - destruct (f x) as [y |] eqn:Hx; [| discriminate H].
    destruct (mapM f xs) as [ys |]; [| discriminate H].
    injection H as <-. constructor; auto.
Qed.

Lemma parse_run_inv : forall base run rows,
  parse_run base run = Ok rows ->
  exists rs results,
    get run "results" VNone = Ok rs
    /\ iter (or_ rs (VList [])) = Ok results
    /\ Forall2 (fun r row =>
                  parse_result base (_get run ["tool"; "driver"; "name"] (VStr base)) r
                  = Ok row) results rows.
Proof.
  intros base run rows H. unfold parse_run in H.
  bind_inv H. bind_inv H. apply mapM_Forall2 in H.
  now exists a, a0.
Qed.

Lemma parse_result_defaults : forall base tool d row,
  parse_result base tool (VDict d) = Ok row ->
  (lookup d "ruleId" = None -> cell row "ruleId" = VStr "")
  /\ (lookup d "level" = None -> cell row "level" = VStr "")
  /\ (breaks_at (VDict d) ["message"; "text"] -> cell row "message" = VStr "")
  /\ (lookup d "locations" = None ->
      cell row "file" = VStr "" /\ cell row "line" = VStr ""
      /\ cell row "col" = VStr "" /\ cell row "endLine" = VStr "")
  /\ (lookup d "properties" = None -> cell row "severity" = VStr "").
Proof.
  intros base tool d row H.
  destruct (parse_result_inv _ _ _ _ H)
    as (d' & loc0 & pl & rg & sev & m & E & Hloc & Hpl & Hrg & Hd & Hsev & Hm & ->).
  injection E as <-.
  split; [| split; [| split; [| split]]].
  - intros Hn. unfold cell, _get; simpl. now rewrite Hn.
  - intros Hn. unfold cell, _get; simpl. now rewrite Hn.
  - intros Hb. apply _get_breaks with (dflt := VStr "") in Hb.
    rewrite Hb in Hm. injection Hm as <-. reflexivity.
  - intros Hn. unfold field in Hloc; rewrite Hn in Hloc. simpl in Hloc.
    injection Hloc as <-. simpl in Hpl. injection Hpl as <-.
    simpl in Hrg. injection Hrg as <-. repeat split.
  - intros Hn. unfold field in Hsev; rewrite Hn in Hsev. simpl in Hsev.
    injection Hsev as <-. reflexivity.
Qed.

(** C1, as amended.  The extractor returns rows without raising exactly
    on the documents of the expected shape: a map, in which each of
    [runs], [results], [locations], [physicalLocation], [region] and
    [properties] is absent (or false) or a container of the expected
    kind, and [message.text] is absent or a string.  Absence never raises
    and resolves to the default: no [runs] or no [results] gives no rows,
    a missing tool name gives the file name, and a missing field of an
    entry gives the empty string in its cells. *)
Theorem extract_total_on_expected_shape : forall base tool path,
  (forall data, (exists df, extract path data = Ok df) <-> doc_ok data = true)
  /\ (forall d, lookup d "runs" = None -> extract path (VDict d) = Ok no_frame)
  /\ (forall d, lookup d "results" = None -> parse_run base (VDict d) = Ok [])
  /\ (forall run rows,
        breaks_at run ["tool"; "driver"; "name"] ->
        parse_run base run = Ok rows ->
        Forall (fun row => cell row "tool" = VStr base) rows)
  /\ (forall d row,
        parse_result base tool (VDict d) = Ok row ->
        (lookup d "ruleId" = None -> cell row "ruleId" = VStr "")
        /\ (lookup d "level" = None -> cell row "level" = VStr "")
        /\ (breaks_at (VDict d) ["message"; "text"] ->
            cell row "message" = VStr "")
        /\ (lookup d "locations" = None ->
            cell row "file" = VStr "" /\ cell row "line" = VStr ""
            /\ cell row "col" = VStr "" /\ cell row "endLine" = VStr "")
        /\ (lookup d "properties" = None -> cell row "severity" = VStr "")).
Proof.
  intros base tool path. repeat apply conj.
  - intros data. rewrite <- (is_ok_extract path). symmetry. apply is_ok_true.
  - intros d Hn. unfold extract. rewrite get_field. unfold field.
    now rewrite Hn.
  - intros d Hn. unfold parse_run. rewrite get_field. unfold field.
    now rewrite Hn.
  - intros run rows Hb H.
    destruct (parse_run_inv _ _ _ H) as (rs & results & _ & _ & HF).
    rewrite (_get_breaks _ _ (VStr base) Hb) in HF. clear H.
    induction HF as [| r row results rows Hr _ IH]; constructor; trivial.
    destruct (parse_result_inv _ _ _ _ Hr)
      as (d' & loc0 & pl & rg & sev & m & _ & _ & _ & _ & _ & _ & _ & ->).
    reflexivity.
  - apply parse_result_defaults.
Qed.

(** C1, as stated, fails: a document whose top level is an array is a
    parsed value, and the extractor raises on it. *)
Lemma extract_raises_on_array :
  extract "scan.sarif" (VList []) = Raise (AttributeError "list" "get")
  /\ doc_ok (VList []) = false.
Proof. split; reflexivity. Qed.

(** ** Severity lookup *)

Lemma severity_of_first_true : forall props,
  severity_of (VDict props) = Ok (first_true severity_keys props).
Proof.
  intros props. unfold severity_of. rewrite !get_dict. cbn [bind first_true severity_keys].
  destruct (lookup props "severity") as [v1 |]; cbn [truthy].
  - destruct (truthy v1); trivial.
    destruct (lookup props "security-severity") as [v2 |]; cbn [truthy].
    + destruct (truthy v2); trivial.
      destruct (lookup props "cvss") as [v3 |]; trivial.
    + destruct (lookup props "cvss") as [v3 |]; trivial.
  - destruct (lookup props "security-severity") as [v2 |]; cbn [truthy].
    + destruct (truthy v2); trivial.
      destruct (lookup props "cvss") as [v3 |]; trivial.
    + destruct (lookup props "cvss") as [v3 |]; trivial.
Qed.

(** C2, as amended.  The severity stored on a row is the string form of
    the value of the first of [severity], [security-severity], [cvss]
    whose value is true (present, and not null, false, zero or empty);
    the empty string when no key has such a value. *)
Theorem severity_from_first_true_key : forall base tool r row,
  parse_result base tool r = Ok row ->
  exists d props,
    r = VDict d
    /\ or_ (field d "properties") (VDict []) = VDict props
    /\ cell row "severity" = VStr (str (first_true severity_keys props))
    /\ ((forall k, In k severity_keys -> truthy (field props k) = false) ->
        cell row "severity" = VStr "").
Proof.
  intros base tool r row H.
  destruct (parse_result_inv _ _ _ _ H)
    as (d & loc0 & pl & rg & sev & m & -> & _ & _ & _ & _ & Hsev & _ & ->).
  destruct (or_ (field d "properties") (VDict [])) as [| | | | | |props] eqn:Hp;
    try discriminate Hsev.
  rewrite severity_of_first_true in Hsev. injection Hsev as <-.
  exists d, props.
  split; [reflexivity | split; [exact Hp | split; [reflexivity |]]].
  intros Hall. unfold cell; simpl. do 2 f_equal.
  unfold severity_keys; simpl.
  pose proof (Hall "severity" (or_introl eq_refl)) as H1.
  pose proof (Hall "security-severity" (or_intror (or_introl eq_refl))) as H2.
  pose proof (Hall "cvss" (or_intror (or_intror (or_introl eq_refl)))) as H3.
  unfold field in H1, H2, H3.
  destruct (lookup props "severity"); [rewrite H1 |];
    (destruct (lookup props "security-severity"); [rewrite H2 |]);
    (destruct (lookup props "cvss"); [rewrite H3 |]); reflexivity.
Qed.

Lemma severity_from_first_true_key_witness :
  exists d props,
    entry_zero_severity = VDict d
    /\ or_ (field d "properties") (VDict []) = VDict props
    /\ cell [ ("source_sarif", VStr "scan.sarif"); ("tool", VStr "scan.sarif");
              ("ruleId", VStr "SQL01"); ("level", VStr "");
              ("severity", VStr "9.8"); ("message", VStr "");
              ("file", VStr ""); ("line", VStr ""); ("col", VStr "");
              ("endLine", VStr "") ] "severity"
       = VStr (str (first_true severity_keys props))
    /\ ((forall k, In k severity_keys -> truthy (field props k) = false) ->
        cell [ ("source_sarif", VStr "scan.sarif"); ("tool", VStr "scan.sarif");
               ("ruleId", VStr "SQL01"); ("level", VStr "");
               ("severity", VStr "9.8"); ("message", VStr "");
               ("file", VStr ""); ("line", VStr ""); ("col", VStr "");
               ("endLine", VStr "") ] "severity" = VStr "").
Proof.
  apply (severity_from_first_true_key "scan.sarif" (VStr "scan.sarif")
           entry_zero_severity).
  reflexivity.
Defined.

(** C2, as stated, fails: with [severity] present and zero, the first
    present key gives "0", and the row holds the later [cvss]; with
    [severity] present and false and no other key, the default is used
    although a key is present. *)
Lemma severity_skips_present_false_value :
  (exists row,
     parse_result "scan.sarif" (VStr "scan.sarif") entry_zero_severity = Ok row
     /\ cell row "severity" = VStr "9.8"
     /\ str (first_present severity_keys
               [("severity", VInt 0); ("cvss", VStr "9.8")]) = "0")
  /\ (exists row,
        parse_result "scan.sarif" (VStr "scan.sarif")
          (VDict [("properties", VDict [("severity", VBool false);
                                        ("rank", VInt 1)])]) = Ok row
        /\ cell row "severity" = VStr ""
        /\ str (first_present severity_keys
                  [("severity", VBool false); ("rank", VInt 1)]) = "False").
Proof.
  split; eexists; repeat split.
Qed.

(** ** The classifier *)

Ltac by_cases_on_char :=
  let b := fresh "b" in
  intros b; destruct b as [[] [] [] [] [] [] [] []]; vm_compute; reflexivity.

Lemma folds_to_a : folds_to "a"%char. Proof. by_cases_on_char. Qed.
Lemma folds_to_e : folds_to "e"%char. Proof. by_cases_on_char. Qed.
Lemma folds_to_g : folds_to "g"%char. Proof. by_cases_on_char. Qed.
Lemma folds_to_i : folds_to "i"%char. Proof. by_cases_on_char. Qed.
Lemma folds_to_n : folds_to "n"%char. Proof. by_cases_on_char. Qed.
Lemma folds_to_o : folds_to "o"%char. Proof. by_cases_on_char. Qed.
Lemma folds_to_r : folds_to "r"%char. Proof. by_cases_on_char. Qed.
Lemma folds_to_t : folds_to "t"%char. Proof. by_cases_on_char. Qed.
Lemma folds_to_w : folds_to "w"%char. Proof. by_cases_on_char. Qed.

Lemma lower_eqb_is_word : forall w,
  all_fold w -> forall s, (Str.lower s =? w)%string = is_word w s.
Proof.
  induction w as [| a w IH]; intros Hw s.
  - now destruct s.
  - destruct Hw as [Ha Hw]. destruct s as [| b s]; trivial.
    simpl. rewrite Ha, (IH Hw). now destruct (same_letter a b).
Qed.

Lemma lower_error : forall s, (Str.lower s =? "error")%string = is_word "error" s.
Proof.
  apply lower_eqb_is_word; simpl;
    repeat split; auto using folds_to_e, folds_to_r, folds_to_o.
Qed.

Lemma lower_warning : forall s,
  (Str.lower s =? "warning")%string = is_word "warning" s.
Proof.
  apply lower_eqb_is_word; simpl;
    repeat split;
    auto using folds_to_w, folds_to_a, folds_to_r, folds_to_n, folds_to_i, folds_to_g.
Qed.

Lemma lower_note : forall s, (Str.lower s =? "note")%string = is_word "note" s.
Proof.
  apply lower_eqb_is_word; simpl;
    repeat split; auto using folds_to_n, folds_to_o, folds_to_t, folds_to_e.
Qed.

Lemma bucket_classify : forall row sev level,
  getitem row "severity" = Ok sev ->
  getitem row "level" = Ok level ->
  truthy level = false \/ is_str level = true ->
  bucket row = Ok (classify sev level).
Proof.
  intros row sev level Hs Hl Hlv. unfold bucket, classify.
  rewrite Hs. cbn [bind].
  destruct (truthy sev && ne_str sev "None"); trivial.
  rewrite Hl. cbn [bind].
  assert (E : or_ level (VStr "")
              = VStr (match level with VStr s => s | _ => "" end)).
  { destruct Hlv as [Hf | Hstr].
    - rewrite or_falsy by assumption. destruct level; trivial.
      simpl in Hf. destruct s; [reflexivity | discriminate Hf].
    - destruct level; try discriminate Hstr. unfold or_; simpl.
      destruct s; reflexivity. }
  rewrite E. cbn [as_str bind].
  rewrite lower_error, lower_warning, lower_note.
  destruct (is_word "error" _); trivial.
  destruct (is_word "warning" _); trivial.
  destruct (is_word "note" _); trivial.
Qed.

Lemma classify_label : forall sev level,
  In (classify sev level)
     [sev; VStr "HIGH"; VStr "MEDIUM"; VStr "LOW"; VStr "UNKNOWN"].
Proof.
  intros sev level. unfold classify.
  destruct (truthy sev && ne_str sev "None"); [now left |].
  destruct (is_word "error" _); [simpl; auto |].
  destruct (is_word "warning" _); [simpl; auto |].
  destruct (is_word "note" _); simpl; auto 6.
Qed.

Lemma bucket_usable : forall row sev,
  getitem row "severity" = Ok sev -> usable sev = true -> bucket row = Ok sev.
Proof.
  intros row sev Hs Hu. unfold bucket. rewrite Hs. cbn [bind].
  unfold usable in Hu. now rewrite Hu.
Qed.

Lemma readable_cases : forall level,
  readable level = true -> truthy level = false \/ is_str level = true.
Proof.
  intros level H. unfold readable in H. apply orb_true_iff in H.
  destruct H as [H | H]; [left; now apply negb_true_iff | now right].
Qed.

(** C3, as amended.  For every row whose severity is usable (present and
    not the string "None") or whose level is a string or a false value
    (absent, null, empty), the classifier returns exactly one label and
    does not raise: the severity verbatim when it is usable, whatever the
    level; else HIGH, MEDIUM or LOW as the level is error, warning or
    note up to case; else UNKNOWN.  A severity of "None" classifies as an
    absent one. *)
Theorem bucket_total_first_match : forall row sev level,
  getitem row "severity" = Ok sev ->
  getitem row "level" = Ok level ->
  usable sev || readable level = true ->
  bucket row = Ok (classify sev level)
  /\ In (classify sev level)
        [sev; VStr "HIGH"; VStr "MEDIUM"; VStr "LOW"; VStr "UNKNOWN"]
  /\ (truthy sev = true -> ne_str sev "None" = true -> classify sev level = sev)
  /\ classify (VStr "None") level = classify (VStr "") level
  /\ classify (VStr "None") level = classify VNone level.
Proof.
  intros row sev level Hs Hl Hok.
  split; [| split; [apply classify_label | split; [| split; reflexivity]]].
  - destruct (usable sev) eqn:Hu.
    + rewrite (bucket_usable _ _ Hs Hu). unfold classify.
      unfold usable in Hu. now rewrite Hu.
    + cbn [orb] in Hok.
      exact (bucket_classify _ _ _ Hs Hl (readable_cases _ Hok)).
  - intros H1 H2. unfold classify. now rewrite H1, H2.
Qed.

Lemma bucket_total_first_match_witness :
  bucket [("severity", VStr "9.8"); ("level", VInt 3)]
    = Ok (classify (VStr "9.8") (VInt 3))
  /\ In (classify (VStr "9.8") (VInt 3))
        [VStr "9.8"; VStr "HIGH"; VStr "MEDIUM"; VStr "LOW"; VStr "UNKNOWN"]
  /\ (truthy (VStr "9.8") = true -> ne_str (VStr "9.8") "None" = true ->
      classify (VStr "9.8") (VInt 3) = VStr "9.8")
  /\ classify (VStr "None") (VInt 3) = classify (VStr "") (VInt 3)
  /\ classify (VStr "None") (VInt 3) = classify VNone (VInt 3).
Proof.
  apply (bucket_total_first_match
           [("severity", VStr "9.8"); ("level", VInt 3)]);
    reflexivity.
Defined.

(** C3, as stated, fails: a result entry whose level is a number is
    extracted into a row, and the classifier raises on that row. *)
Lemma bucket_raises_on_numeric_level :
  exists row,
    extract "scan.sarif" doc_numeric_level = Ok (mkFrame finding_columns [row])
    /\ getitem row "severity" = Ok (VStr "")
    /\ getitem row "level" = Ok (VInt 5)
    /\ bucket row = Raise (AttributeError "int" "lower").
Proof.
  eexists. split; [reflexivity |]. repeat split.
Qed.

(** ** Stripping and replacing *)

Lemma contains_app : forall c s t,
  Str.contains c (s ++ t) = Str.contains c s || Str.contains c t.
Proof.
  intros c s t; induction s as [| a s IH]; simpl; trivial.
  now rewrite IH, orb_assoc.
Qed.

Lemma contains_replace : forall old new s,
  old <> new -> Str.contains old (Str.replace old new s) = false.
Proof.
  intros old new s Hne; induction s as [| c s IH]; simpl; trivial.
  rewrite IH, orb_false_r.
  destruct (Ascii.eqb_spec c old) as [-> | Hc].
  - apply Ascii.eqb_neq. congruence.
  - now apply Ascii.eqb_neq.
Qed.

Lemma rstrip_split : forall s,
  exists r, s = Str.rstrip s ++ r
            /\ all_chars Str.isspace r = true
            /\ not_space (last_char (Str.rstrip s)).
Proof.
  induction s as [| c s (r & Hs & Hr & Hl)]; simpl.
  - exists ""; repeat split.
  - destruct (Str.rstrip s) as [| a t] eqn:Ht.
    + simpl in Hs. subst r. destruct (Str.isspace c) eqn:Hc.
      * exists (String c s); simpl. rewrite Hc, Hr. repeat split.
      * exists s; simpl. repeat split; trivial.
    + exists r. split; [simpl in *; now rewrite <- Hs |].
      split; trivial.
Qed.

Lemma lstrip_split : forall s,
  exists l, s = l ++ Str.lstrip s
            /\ all_chars Str.isspace l = true
            /\ not_space (first_char (Str.lstrip s)).
Proof.
  induction s as [| c s (l & Hs & Hl & Hf)]; simpl.
  - exists ""; repeat split.
  - destruct (Str.isspace c) eqn:Hc.
    + exists (String c l); simpl. rewrite Hc, Hl, <- Hs. repeat split; trivial.
    + exists ""; simpl. repeat split; trivial.
Qed.

Lemma lstrip_last : forall s,
  not_space (last_char s) -> not_space (last_char (Str.lstrip s)).
Proof.
  induction s as [| c s IH]; simpl; trivial.
  intros H. destruct (Str.isspace c) eqn:Hc; [| exact H].
  destruct s as [| a s]; [exact I |]. now apply IH.
Qed.

Lemma append_assoc : forall a b c : string, (a ++ b) ++ c = a ++ b ++ c.
Proof.
  intros a b c; induction a as [| x a IH]; simpl; trivial. now rewrite IH.
Qed.

Lemma strip_trimmed : forall s, trimmed s (Str.strip s).
Proof.
  intros s. unfold trimmed, Str.strip.
  destruct (rstrip_split s) as (r & Hs & Hr & Hlast).
  destruct (lstrip_split (Str.rstrip s)) as (l & Ht & Hl & Hfirst).
  exists l, r. repeat split; trivial.
  - rewrite <- append_assoc, <- Ht. exact Hs.
  - now apply lstrip_last.
Qed.

Lemma trimmed_contains : forall s t c,
  trimmed s t -> Str.contains c s = false -> Str.contains c t = false.
Proof.
  intros s t c (l & r & -> & _) H.
  rewrite !contains_app in H.
  destruct (Str.contains c t); trivial.
  now rewrite orb_true_r in H.
Qed.

Lemma isspace_newline_to_space : forall c,
  Str.isspace (newline_to_space c) = Str.isspace c.
Proof.
  intros c. unfold newline_to_space.
  destruct (Ascii.eqb_spec c Str.newline) as [-> |]; reflexivity.
Qed.

Lemma lstrip_replace : forall s,
  Str.lstrip (Str.replace Str.newline Str.space s)
  = Str.replace Str.newline Str.space (Str.lstrip s).
Proof.
  induction s as [| c s IH]; simpl; trivial.
  fold (newline_to_space c). rewrite isspace_newline_to_space.
  now destruct (Str.isspace c).
Qed.

Lemma rstrip_replace : forall s,
  Str.rstrip (Str.replace Str.newline Str.space s)
  = Str.replace Str.newline Str.space (Str.rstrip s).
Proof.
  induction s as [| c s IH]; simpl; trivial.
  rewrite IH. fold (newline_to_space c).
  destruct (Str.rstrip s) as [| a t]; simpl.
  - rewrite isspace_newline_to_space. now destruct (Str.isspace c).
  - reflexivity.
Qed.

Lemma strip_replace : forall s,
  Str.strip (Str.replace Str.newline Str.space s)
  = Str.replace Str.newline Str.space (Str.strip s).
Proof.
  intros s. unfold Str.strip. now rewrite rstrip_replace, lstrip_replace.
Qed.

(** ** The frame of an extraction *)

Lemma align_finding : forall r,
  map fst r = finding_columns -> align finding_columns r = r.
Proof.
  intros r H. unfold finding_columns in H.
  repeat (destruct r as [| [? ?] r]; [discriminate H |];
          simpl in H; injection H as -> H).
  destruct r; [| simpl in H; discriminate H]. reflexivity.
Qed.

Lemma fold_labels_finding : forall records,
  Forall (fun r : record => map fst r = finding_columns) records ->
  fold_left (fun acc (r : record) => add_labels acc (map fst r)) records finding_columns
  = finding_columns.
Proof.
  intros records H; induction H as [| r records Hr _ IH]; simpl; trivial.
  rewrite Hr. exact IH.
Qed.

Lemma frame_columns_findings : forall records,
  Forall (fun r : record => map fst r = finding_columns) records ->
  columns (frame records)
  = match records with [] => [] | _ => finding_columns end.
Proof.
  intros records H. unfold frame; cbn [columns].
  destruct H as [| r records Hr H]; cbn [fold_left]; trivial.
  rewrite Hr. change (add_labels [] finding_columns) with finding_columns.
  now apply fold_labels_finding.
Qed.

Lemma frame_findings : forall records,
  Forall (fun r : record => map fst r = finding_columns) records ->
  frame records
  = mkFrame (match records with [] => [] | _ => finding_columns end) records.
Proof.
  intros records H.
  change (frame records)
    with (mkFrame (columns (frame records))
                  (map (align (columns (frame records))) records)).
  rewrite (frame_columns_findings _ H). f_equal.
  destruct records as [| r0 records0]; trivial.
  rewrite <- (map_id (r0 :: records0)) at 2.
  apply map_ext_in. intros r Hin.
  apply align_finding. rewrite Forall_forall in H. now apply H.
Qed.

Lemma Forall2_In_r : forall A B (R : A -> B -> Prop) l l' y,
  Forall2 R l l' -> In y l' -> exists x, In x l /\ R x y.
Proof.
  intros A B R l l' y H; induction H as [| a b l l' Hab _ IH]; simpl.
  - intros [].
  - intros [<- | Hin].
    + exists a; auto.
    + destruct (IH Hin) as (x & Hx & HR). exists x; auto.
Qed.

Lemma parse_result_columns : forall base tool r row,
  parse_result base tool r = Ok row -> map fst row = finding_columns.
Proof.
  intros base tool r row H.
  destruct (parse_result_inv _ _ _ _ H)
    as (d & loc0 & pl & rg & sev & m & _ & _ & _ & _ & _ & _ & _ & ->).
  reflexivity.
Qed.

Lemma extract_inv : forall path data df,
  extract path data = Ok df ->
  exists records,
    df = mkFrame (match records with [] => [] | _ => finding_columns end) records
    /\ forall row, In row records ->
         exists r tool,
           entry_of data r
           /\ parse_result (Str.basename path) tool r = Ok row.
Proof.
  intros path data df H. unfold extract in H.
  bind_inv H. rename a into rn, Ha into Hrn.
  bind_inv H. rename a into runs, Ha into Hruns.
  bind_inv H. rename a into rowss, Ha into Hrows.
  injection H as <-. apply mapM_Forall2 in Hrows.
  assert (Hsrc : forall row, In row (List.concat rowss) ->
            exists r tool, entry_of data r
                           /\ parse_result (Str.basename path) tool r = Ok row).
  { intros row Hin. apply in_concat in Hin. destruct Hin as (rows & Hrs & Hin).
    destruct (Forall2_In_r _ _ _ _ _ _ Hrows Hrs) as (run & Hrun & Hp).
    destruct (parse_run_inv _ _ _ Hp) as (rs & results & Hg & Hi & HF).
    destruct (Forall2_In_r _ _ _ _ _ _ HF Hin) as (r & Hr & Hres).
    exists r, (_get run ["tool"; "driver"; "name"] (VStr (Str.basename path))).
    split; trivial.
    exists rn, runs, run, rs, results. repeat split; trivial. }
  exists (List.concat rowss). split; trivial.
  apply frame_findings. apply Forall_forall. intros row Hin.
  destruct (Hsrc row Hin) as (r & tool & _ & Hp).
  eapply parse_result_columns; eassumption.
Qed.

(** ** Cutting strings *)

Lemma length_app : forall a b : string,
  String.length (a ++ b) = (String.length a + String.length b)%nat.
Proof.
  intros a b; induction a as [| c a IH]; simpl; trivial. now rewrite IH.
Qed.

Lemma substring_from_start : forall n s,
  (n <= String.length s)%nat ->
  exists rest, s = substring 0 n s ++ rest
               /\ String.length (substring 0 n s) = n.
Proof.
  induction n as [| n IH]; intros s Hn.
  - exists s. destruct s; split; reflexivity.
  - destruct s as [| c s]; [simpl in Hn; lia |].
    simpl in Hn. destruct (IH s) as (rest & Hs & Hl); [lia |].
    exists rest; simpl. split; [now rewrite <- Hs | now rewrite Hl].
Qed.

Lemma substring_to_end : forall k n s,
  (k + n = String.length s)%nat ->
  exists front, s = front ++ substring k n s
                /\ String.length (substring k n s) = n.
Proof.
  induction k as [| k IH]; intros n s Hk.
  - exists "". simpl in Hk. subst n.
    assert (E : substring 0 (String.length s) s = s).
    { induction s as [| c s IHs]; simpl; trivial. now rewrite IHs. }
    rewrite E. split; reflexivity.
  - destruct s as [| c s]; [simpl in Hk; lia |].
    simpl in Hk. destruct (IH n s) as (front & Hs & Hl); [lia |].
    exists (String c front); simpl. split; [now rewrite <- Hs | exact Hl].
Qed.

Lemma cut_message_spec : forall text, message_cut text (cut_message text).
Proof.
  intros text. unfold message_cut, cut_message.
  destruct (Nat.ltb_spec 120 (String.length text)) as [Hlt | Hle].
  - right. split; trivial.
    destruct (substring_from_start 117 text) as (rest & Hs & Hl); [lia |].
    exists (Str.prefix 117 text), rest. repeat split; trivial.
  - left; split; trivial.
Qed.

Lemma cut_file_spec : forall text, file_cut text (cut_file text).
Proof.
  intros text. unfold file_cut, cut_file.
  destruct (Nat.ltb_spec 45 (String.length text)) as [Hlt | Hle].
  - right. split; trivial.
    destruct (substring_to_end (String.length text - 42) 42 text)
      as (front & Hs & Hl); [lia |].
    exists front, (Str.suffix 42 text). repeat split; trivial.
  - left; split; trivial.
Qed.

Lemma message_cut_length : forall text out,
  message_cut text out -> (String.length out <= 120)%nat.
Proof.
  intros text out [[Hle ->] | [_ (kept & rest & _ & Hk & ->)]]; trivial.
  rewrite length_app, Hk. simpl. lia.
Qed.

Lemma file_cut_length : forall text out,
  file_cut text out -> (String.length out <= 45)%nat.
Proof.
  intros text out [[Hle ->] | [_ (front & kept & _ & Hk & ->)]]; trivial.
  rewrite length_app, Hk. simpl. lia.
Qed.

Lemma message_cut_empty : forall out, message_cut "" out -> out = "".
Proof.
  intros out [[_ ->] | [H _]]; trivial. simpl in H; lia.
Qed.

Lemma file_cut_empty : forall out, file_cut "" out -> out = "".
Proof.
  intros out [[_ ->] | [H _]]; trivial. simpl in H; lia.
Qed.

(** ** Filling the missing columns *)

Lemma lookup_set_cell : forall c v r c',
  lookup (set_cell c v r) c'
  = if String.eqb c c' then Some v else lookup r c'.
Proof.
  intros c v r c'; induction r as [| [k w] r IH]; simpl.
  - reflexivity.
  - destruct (String.eqb_spec k c) as [-> | Hkc]; simpl.
    + now destruct (String.eqb c c').
    + rewrite IH. destruct (String.eqb_spec k c') as [-> | Hkc'].
      * destruct (String.eqb_spec c c'); [congruence | reflexivity].
      * reflexivity.
Qed.

Lemma cell_set_cell : forall c v r c',
  cell (set_cell c v r) c' = if String.eqb c c' then v else cell r c'.
Proof.
  intros c v r c'. unfold cell. rewrite lookup_set_cell.
  now destruct (String.eqb c c').
Qed.

Lemma mem_app_one : forall c' cs c,
  mem c' (cs ++ [c]) = mem c' cs || String.eqb c' c.
Proof.
  intros c' cs c. unfold mem. rewrite existsb_app. simpl.
  now rewrite orb_false_r.
Qed.

Lemma mem_true_eqb : forall c c' cs,
  mem c cs = true -> String.eqb c' c = true -> mem c' cs = true.
Proof.
  intros c c' cs H E. apply String.eqb_eq in E. now subst.
Qed.

Lemma fill_step_columns : forall df c c',
  mem c' (columns (fill_step df c)) = mem c' (columns df) || String.eqb c' c.
Proof.
  intros df c c'. unfold fill_step.
  destruct (mem c (columns df)) eqn:Hc.
  - destruct (String.eqb c' c) eqn:E.
    + now rewrite (mem_true_eqb _ _ _ Hc E).
    + now rewrite orb_false_r.
  - simpl. rewrite Hc. apply mem_app_one.
Qed.

(** After the fill, each row is the row before with [""] in the cells of
    the columns of [cs] the frame lacked. *)
Lemma fill_rows : forall cs df,
  exists g,
    rows (fold_left fill_step cs df) = map g (rows df)
    /\ forall r c',
         cell (g r) c'
         = if mem c' cs && negb (mem c' (columns df)) then VStr ""
           else cell r c'.
Proof.
  induction cs as [| c cs IH]; intros df.
  - exists (fun r => r). split; [now rewrite map_id | reflexivity].
  - destruct (IH (fill_step df c)) as (g & Hrows & Hcell).
    cbn [fold_left].
    exists (fun r => g (if mem c (columns df) then r
                        else set_cell c (VStr "") r)).
    split.
    + rewrite Hrows. unfold fill_step.
      destruct (mem c (columns df)); trivial.
      simpl. now rewrite map_map.
    + intros r c'. rewrite Hcell, fill_step_columns.
      change (mem c' (c :: cs)) with (String.eqb c' c || mem c' cs).
      destruct (mem c (columns df)) eqn:Hc.
      * destruct (String.eqb c' c) eqn:E.
        -- rewrite (mem_true_eqb _ _ _ Hc E). simpl.
           now rewrite andb_false_r.
        -- now rewrite orb_false_r.
      * rewrite cell_set_cell, (String.eqb_sym c c').
        destruct (String.eqb c' c) eqn:E.
        -- apply String.eqb_eq in E; subst c'. rewrite Hc. simpl.
           now destruct (mem c cs).
        -- rewrite orb_false_r. reflexivity.
Qed.

Lemma slice_to_map : forall A B (f : A -> B) n l,
  slice_to n (map f l) = map f (slice_to n l).
Proof.
  intros A B f n l. unfold slice_to. rewrite length_map.
  destruct (0 <=? n); apply firstn_map.
Qed.

Lemma slice_to_nonneg : forall A n (l : list A),
  0 <= n -> slice_to n l = firstn (Z.to_nat n) l.
Proof.
  intros A n l H. unfold slice_to.
  destruct (Z.leb_spec 0 n); [reflexivity | lia].
Qed.

Lemma table_row_align : forall r, table_row (align cols r) = table_row r.
Proof. reflexivity. Qed.

(** The grid, row by row. *)
Lemma df_to_table_data_rows : forall df max_rows,
  exists g,
    df_to_table_data df max_rows
    = cols :: map (fun r => table_row (g r)) (slice_to max_rows (rows df))
    /\ forall r c, In c cols -> str (cell (g r) c) = source_text df r c.
Proof.
  intros df max_rows.
  destruct (fill_rows cols df) as (g & Hrows & Hcell).
  exists g. split.
  - unfold df_to_table_data, fill_missing.
    cbn [head select rows columns]. rewrite Hrows.
    rewrite slice_to_map, slice_to_map, !map_map. reflexivity.
  - intros r c Hc. rewrite Hcell. unfold source_text.
    assert (E : mem c cols = true).
    { unfold mem. apply existsb_exists. exists c. split; trivial.
      apply String.eqb_refl. }
    rewrite E. simpl. now destruct (mem c (columns df)).
Qed.

Lemma table_row_formatted : forall df r g,
  (forall c, In c cols -> str (cell (g r) c) = source_text df r c) ->
  formatted df r (table_row (g r)).
Proof.
  intros df r g H. unfold formatted, table_row.
  do 7 eexists. split; [reflexivity |].
  repeat split; try (apply H; simpl; auto 10).
  - rewrite H by (simpl; auto 10). apply cut_file_spec.
  - rewrite H by (simpl; auto 10). apply cut_message_spec.
Qed.

(** ** The formatted table *)

Lemma Forall2_map_r : forall A B (R : A -> B -> Prop) (f : A -> B) l,
  (forall x, In x l -> R x (f x)) -> Forall2 R l (map f l).
Proof.
  intros A B R f l; induction l as [| x l IH]; intros H; simpl; constructor.
  - apply H; now left.
  - apply IH. intros y Hy; apply H; now right.
Qed.

Lemma formatted_bounds : forall df r out,
  formatted df r out ->
  List.length out = 7%nat
  /\ (String.length (nth 6 out "") <= 120)%nat
  /\ (String.length (nth 4 out "") <= 45)%nat.
Proof.
  intros df r out (tool & rule & level & sev & filep & line & msg & -> & _ & _
                   & _ & _ & Hf & _ & Hm).
  repeat split.
  - eapply message_cut_length; eassumption.
  - eapply file_cut_length; eassumption.
Qed.

Lemma formatted_missing : forall df r out c i,
  formatted df r out ->
  nth_error cols i = Some c ->
  mem c (columns df) = false ->
  nth i out "" = "".
Proof.
  intros df r out c i (tool & rule & level & sev & filep & line & msg & -> & Ht
                       & Hr & Hl & Hs & Hf & Hn & Hm) Hi Hc.
  unfold source_text in *.
  do 7 (destruct i as [| i];
        [ simpl in Hi; injection Hi as <-; rewrite Hc in *; simpl;
          first [ assumption
                | now apply file_cut_empty
                | now apply message_cut_empty ] |]).
  destruct i; discriminate Hi.
Qed.

Lemma Forall2_Forall_r : forall A B (R : A -> B -> Prop) (P : B -> Prop) l l',
  Forall2 R l l' -> (forall x y, R x y -> P y) -> Forall P l'.
Proof.
  intros A B R P l l' H HP; induction H; constructor; eauto.
Qed.

Lemma Forall2_length : forall A B (R : A -> B -> Prop) l l',
  Forall2 R l l' -> List.length l = List.length l'.
Proof.
  intros A B R l l' H; induction H; simpl; auto.
Qed.

Lemma table_rows_formatted : forall df max_rows,
  0 <= max_rows ->
  Forall2 (formatted df) (firstn (Z.to_nat max_rows) (rows df))
          (tl (df_to_table_data df max_rows)).
Proof.
  intros df max_rows Hn.
  destruct (df_to_table_data_rows df max_rows) as (g & -> & Hg).
  cbn [tl]. rewrite slice_to_nonneg by assumption.
  apply Forall2_map_r. intros r _.
  apply table_row_formatted. intros c Hc. now apply Hg.
Qed.

(** C5.  The table is bounded.  For a frame and a maximum row count, the
    rows of the grid below the header are the first rows of the frame, at
    most the maximum; the rows beyond are dropped.  Each is formatted
    from its frame row: the message is the text itself when it has at
    most 120 characters, else its first 117 characters and the ellipsis;
    the file is the text itself when it has at most 45 characters, else
    the ellipsis and its last 42 characters.  So no message exceeds 120
    characters and no file 45, and a column the frame lacks is the empty
    string in every row. *)
Theorem table_formatting_bounded : forall df max_rows,
  0 <= max_rows ->
  let body := tl (df_to_table_data df max_rows) in
  Forall2 (formatted df) (firstn (Z.to_nat max_rows) (rows df)) body
  /\ Z.of_nat (List.length body) <= max_rows
  /\ Forall (fun out => (String.length (nth 6 out "") <= 120)%nat
                        /\ (String.length (nth 4 out "") <= 45)%nat) body
  /\ (forall c i, nth_error cols i = Some c -> mem c (columns df) = false ->
        Forall (fun out => nth i out "" = "") body).
Proof.
  intros df max_rows Hn body.
  pose proof (table_rows_formatted df max_rows Hn) as HF. fold body in HF.
  split; [exact HF |]. split; [| split].
  - rewrite <- (Forall2_length _ _ _ _ _ HF).
    pose proof (firstn_le_length (Z.to_nat max_rows) (rows df)). lia.
  - eapply Forall2_Forall_r; [exact HF |].
    intros r out H. now destruct (formatted_bounds _ _ _ H) as (_ & ? & ?).
  - intros c i Hi Hc. eapply Forall2_Forall_r; [exact HF |].
    intros r out H. eapply formatted_missing; eassumption.
Qed.

Lemma table_formatting_bounded_witness :
  let body := tl (df_to_table_data long_path_frame 2) in
  Forall2 (formatted long_path_frame)
          (firstn (Z.to_nat 2) (rows long_path_frame)) body
  /\ Z.of_nat (List.length body) <= 2
  /\ Forall (fun out => (String.length (nth 6 out "") <= 120)%nat
                        /\ (String.length (nth 4 out "") <= 45)%nat) body
  /\ (forall c i, nth_error cols i = Some c ->
        mem c (columns long_path_frame) = false ->
        Forall (fun out => nth i out "" = "") body).
Proof.
  apply (table_formatting_bounded long_path_frame 2). lia.
Defined.

(** C10.  The grid starts with the header row; every row has seven
    entries; with a maximum of [max_rows] the grid has at most
    [max_rows + 1] rows. *)
Theorem table_grid_shape : forall df max_rows,
  0 <= max_rows ->
  hd_error (df_to_table_data df max_rows)
  = Some ["tool"; "ruleId"; "level"; "severity"; "file"; "line"; "message"]
  /\ Forall (fun row => List.length row = 7%nat) (df_to_table_data df max_rows)
  /\ Z.of_nat (List.length (df_to_table_data df max_rows)) <= max_rows + 1.
Proof.
  intros df max_rows Hn.
  destruct (df_to_table_data_rows df max_rows) as (g & E & _).
  rewrite E. split; [reflexivity |]. split.
  - constructor; [reflexivity |].
    apply Forall_forall. intros row Hin. apply in_map_iff in Hin.
    destruct Hin as (r & <- & _). reflexivity.
  - cbn [List.length]. rewrite length_map, slice_to_nonneg by assumption.
    pose proof (firstn_le_length (Z.to_nat max_rows) (rows df)). lia.
Qed.

Lemma table_grid_shape_witness :
  hd_error (df_to_table_data long_path_frame 2)
  = Some ["tool"; "ruleId"; "level"; "severity"; "file"; "line"; "message"]
  /\ Forall (fun row => List.length row = 7%nat)
            (df_to_table_data long_path_frame 2)
  /\ Z.of_nat (List.length (df_to_table_data long_path_frame 2)) <= 2 + 1.
Proof.
  apply (table_grid_shape long_path_frame 2). lia.
Defined.

(** ** The report *)

Lemma flat_map_split : forall A B (f : A -> list B) l x,
  In x l ->
  exists before after, flat_map f l = (before ++ f x ++ after)%list.
Proof.
  intros A B f l x Hin. apply in_split in Hin.
  destruct Hin as (l1 & l2 & ->).
  exists (flat_map f l1), (flat_map f l2).
  now rewrite flat_map_app.
Qed.

Lemma groupby_rows : forall c df name df_s,
  In (name, df_s) (groupby c df) ->
  df_s = mkFrame (columns df) (filter (has_key c name) (rows df)).
Proof.
  intros c df name df_s H. unfold groupby in H.
  apply in_map_iff in H. destruct H as (k & E & _).
  now injection E as <- <-.
Qed.

Lemma section_inv : forall lib name df_s sec,
  section lib name df_s = Ok sec ->
  markup lib (section_title name df_s) = Ok tt
  /\ sec = [ Paragraph (section_title name df_s) "Heading2"; Spacer 1 6;
             Table (df_to_table_data df_s 60) 1 [70; 85; 45; 55; 110; 35; 120];
             Spacer 1 12; truncation_note; PageBreak ].
Proof.
  intros lib name df_s sec H. unfold section in H. bind_inv H.
  destruct a. injection H as <-. now split.
Qed.

Lemma build_pdf_inv : forall lib on_disk now df_all pdf_path charts story,
  build_pdf lib on_disk now df_all pdf_path charts = Ok story ->
  empty df_all = false ->
  exists sections,
    Forall2 (fun g sec => section lib (fst g) (snd g) = Ok sec)
            (groupby "source_sarif" df_all) sections
    /\ story
       = (heading now
          ++ [ Paragraph ("Total findings: <b>" ++ Str.of_nat (len df_all)
                          ++ "</b>") "Normal";
               Spacer 1 10 ]
          ++ flat_map (fun ch => if on_disk ch
                                 then [Image ch 520 280; Spacer 1 10] else [])
                      charts
          ++ [PageBreak] ++ List.concat sections)%list.
Proof.
  intros lib on_disk now df_all pdf_path charts story H Hne.
  unfold build_pdf in H. rewrite Hne in H.
  destruct (mem "source_sarif" (columns df_all)); [| discriminate H].
  bind_inv H. rename a into sections. injection H as <-.
  exists sections. split; [now apply mapM_Forall2 | reflexivity].
Qed.



(** ** The loop over the documents *)

Lemma collect_from : forall fs sarifs dfs out,
  fold_left (visit fs) sarifs (dfs, out)
  = ((dfs ++ flat_map (kept_of fs) sarifs)%list,
     (out ++ flat_map (warns_of fs) sarifs)%list).
Proof.
  intros fs sarifs; induction sarifs as [| s sarifs IH]; intros dfs out.
  - simpl. now rewrite !app_nil_r.
  - cbn [fold_left flat_map].
    assert (E : visit fs (dfs, out) s
                = ((dfs ++ kept_of fs s)%list, (out ++ warns_of fs s)%list)).
    { unfold visit, kept_of, warns_of.
      destruct (parse_sarif fs s) as [df | e]; cbn [fst snd].
      - destruct (empty df); now rewrite ?app_nil_r.
      - now rewrite app_nil_r. }
    rewrite E, IH. now rewrite <- !app_assoc.
Qed.

Lemma collect_spec : forall fs sarifs,
  collect fs sarifs
  = (flat_map (kept_of fs) sarifs, flat_map (warns_of fs) sarifs).
Proof. intros fs sarifs. unfold collect. now rewrite collect_from. Qed.

Lemma make_charts_empty : forall lib df out_dir,
  empty df = true -> make_charts lib df out_dir = Ok [].
Proof. intros lib df out_dir H. unfold make_charts. now rewrite H. Qed.

Lemma build_pdf_empty : forall lib on_disk now df pdf_path charts,
  empty df = true ->
  build_pdf lib on_disk now df pdf_path charts
  = Ok (heading now ++ [no_findings])%list.
Proof. intros. unfold build_pdf. now rewrite H. Qed.

Lemma kept_of_no_findings : forall fs sarifs,
  Forall (fun s => forall df, parse_sarif fs s = Ok df -> rows df = []) sarifs ->
  flat_map (kept_of fs) sarifs = [].
Proof.
  intros fs sarifs H; induction H as [| s sarifs Hs _ IH]; simpl; trivial.
  rewrite IH, app_nil_r. unfold kept_of.
  destruct (parse_sarif fs s) as [df |]; trivial.
  unfold empty. now rewrite (Hs df eq_refl).
Qed.

(** C7.  An empty dataset is not an error.  When there is no document,
    or every document that parses has no finding, the run reaches its
    end: the dataset is the empty frame, no chart is made, and the story
    is the heading (title and time) and the message of no findings, with
    no image and no table.  The chart step makes no chart, and the report
    has this story, for every empty frame.  Nothing is drawn and no name
    is read as markup, so this holds whatever the libraries accept. *)
Theorem empty_dataset_minimal_report : forall fs lib on_disk now sarifs,
  Forall (fun s => forall df, parse_sarif fs s = Ok df -> rows df = []) sarifs ->
  (exists o,
     run fs lib on_disk now sarifs = Ok o
     /\ dataset o = no_frame
     /\ charts o = []
     /\ story o = (heading now ++ [no_findings])%list
     /\ existsb is_image (story o) = false
     /\ existsb is_table (story o) = false)
  /\ (forall df out_dir, empty df = true -> make_charts lib df out_dir = Ok [])
  /\ (forall df pdf_path charts,
        empty df = true ->
        build_pdf lib on_disk now df pdf_path charts
        = Ok (heading now ++ [no_findings])%list).
Proof.
  intros fs lib on_disk now sarifs H.
  split; [| split; [apply make_charts_empty | intros; now apply build_pdf_empty]].
  unfold run. rewrite collect_spec, (kept_of_no_findings _ _ H).
  cbn [aggregate]. rewrite make_charts_empty by reflexivity. cbn [bind].
  rewrite build_pdf_empty by reflexivity. cbn [bind].
  eexists. split; [reflexivity |]. cbn [dataset charts story].
  repeat split.
Qed.

Lemma empty_dataset_minimal_report_witness :
  (exists o,
     run only_empty_documents accepting (fun _ => true) "2026-01-01T00:00:00"
         ["a.sarif"; "b.sarif"] = Ok o
     /\ dataset o = no_frame
     /\ charts o = []
     /\ story o = (heading "2026-01-01T00:00:00" ++ [no_findings])%list
     /\ existsb is_image (story o) = false
     /\ existsb is_table (story o) = false)
  /\ (forall df out_dir,
        empty df = true -> make_charts accepting df out_dir = Ok [])
  /\ (forall df pdf_path charts,
        empty df = true ->
        build_pdf accepting (fun _ => true) "2026-01-01T00:00:00" df pdf_path
                  charts
        = Ok (heading "2026-01-01T00:00:00" ++ [no_findings])%list).
Proof.
  apply (empty_dataset_minimal_report only_empty_documents accepting
           (fun _ => true) "2026-01-01T00:00:00" ["a.sarif"; "b.sarif"]).
  repeat constructor; intros df H; injection H as <-; reflexivity.
Defined.

Lemma fails_kept : forall fs s, fails fs s = true -> kept_of fs s = [].
Proof.
  intros fs s. unfold fails, kept_of.
  destruct (parse_sarif fs s); [discriminate | reflexivity].
Qed.

Lemma fails_warns : forall fs s,
  warns_of fs s = if fails fs s then [warning_for fs s] else [].
Proof.
  intros fs s. unfold fails, warns_of, warning_for.
  now destruct (parse_sarif fs s).
Qed.

Lemma kept_skips_failures : forall fs sarifs,
  flat_map (kept_of fs) (filter (fun s => negb (fails fs s)) sarifs)
  = flat_map (kept_of fs) sarifs.
Proof.
  intros fs sarifs; induction sarifs as [| s sarifs IH]; simpl; trivial.
  destruct (fails fs s) eqn:Hf; simpl.
  - now rewrite (fails_kept _ _ Hf).
  - now rewrite IH.
Qed.

Lemma warns_of_failures : forall fs sarifs,
  flat_map (warns_of fs) sarifs
  = map (warning_for fs) (filter (fails fs) sarifs).
Proof.
  intros fs sarifs; induction sarifs as [| s sarifs IH]; simpl; trivial.
  rewrite fails_warns, IH. now destruct (fails fs s).
Qed.

Lemma no_warning_without_failure : forall fs sarifs,
  flat_map (warns_of fs) (filter (fun s => negb (fails fs s)) sarifs) = [].
Proof.
  intros fs sarifs. rewrite warns_of_failures.
  induction sarifs as [| s sarifs IH]; simpl; trivial.
  destruct (fails fs s) eqn:Hf; simpl; trivial. now rewrite Hf.
Qed.

Lemma parse_sarif_frame : forall fs s df,
  parse_sarif fs s = Ok df ->
  rows df = [] \/ finding_frame df.
Proof.
  intros fs s df H. unfold parse_sarif in H. bind_inv H.
  destruct (extract_inv _ _ _ H) as (records & -> & Hsrc).
  destruct records as [| r records]; [now left |].
  right. exists (r :: records). repeat split; [discriminate |].
  apply Forall_forall. intros row Hin.
  destruct (Hsrc row Hin) as (r0 & tool & _ & Hp).
  eapply parse_result_columns; eassumption.
Qed.

Lemma kept_are_finding_frames : forall fs sarifs,
  Forall finding_frame (flat_map (kept_of fs) sarifs).
Proof.
  intros fs sarifs; induction sarifs as [| s sarifs IH]; simpl.
  - constructor.
  - apply Forall_app. split; trivial. unfold kept_of.
    destruct (parse_sarif fs s) as [df | e] eqn:Hs; [| constructor].
    destruct (empty df) eqn:He; constructor; [| constructor].
    destruct (parse_sarif_frame _ _ _ Hs) as [Hr | Hf]; trivial.
    unfold empty in He. rewrite Hr in He. discriminate He.
Qed.

Lemma fold_labels_frames : forall dfs,
  Forall finding_frame dfs ->
  fold_left (fun acc df => add_labels acc (columns df)) dfs finding_columns
  = finding_columns.
Proof.
  intros dfs H; induction H as [| df dfs (records & _ & -> & _) _ IH];
    simpl; trivial.
Qed.

Lemma concat_finding_frames : forall dfs,
  Forall finding_frame dfs -> dfs <> [] ->
  concat dfs = mkFrame finding_columns (flat_map rows dfs).
Proof.
  intros dfs H Hne. unfold concat.
  assert (E : fold_left (fun acc df => add_labels acc (columns df)) dfs []
              = finding_columns).
  { destruct H as [| df dfs (records & _ & -> & _) H]; [congruence |].
    simpl. change (add_labels [] finding_columns) with finding_columns.
    now apply fold_labels_frames. }
  rewrite E. f_equal.
  rewrite <- (map_id (flat_map rows dfs)) at 2.
  apply map_ext_in. intros r Hin. apply align_finding.
  apply in_flat_map in Hin. destruct Hin as (df & Hdf & Hr).
  rewrite Forall_forall in H.
  destruct (H df Hdf) as (records & _ & -> & Hk).
  rewrite Forall_forall in Hk. now apply Hk.
Qed.


(** * Further properties *)

(** ** Paths through a document *)

Lemma _get_from_app : forall p q obj v d,
  leads_to obj p v -> _get obj (p ++ q)%list d = _get v q d.
Proof.
  intros p q obj v d H. unfold _get.
  induction H as [u | m k ks c v Hl Hc IH]; simpl; trivial.
  now rewrite Hl.
Qed.

Lemma breaks_at_app : forall p q obj,
  breaks_at obj p -> breaks_at obj (p ++ q)%list.
Proof.
  intros p q obj H.
  induction H as [o k ks Hn | m k ks Hl | m k ks c Hl Hb IH]; simpl.
  - now apply breaks_not_map.
  - now apply breaks_absent.
  - eapply breaks_later; eassumption.
Qed.

(** X1.  Looking up the path [p ++ q] is looking up [q] from the value
    [p] leads to; when [p] breaks, the longer path gives the default, and
    the empty path gives the object itself. *)
Theorem get_path_concat : forall obj p q d,
  (forall v, leads_to obj p v -> _get obj (p ++ q)%list d = _get v q d)
  /\ (breaks_at obj p -> _get obj (p ++ q)%list d = d)
  /\ _get obj [] d = obj.
Proof.
  intros obj p q d. split; [| split].
  - intros v H. now apply _get_from_app.
  - intros H. apply _get_breaks. now apply breaks_at_app.
  - reflexivity.
Qed.

(** ** The rows of an extraction *)

Lemma Forall2_flat_map : forall A B C (R : B -> C -> Prop)
    (f : A -> list B) (l : list A) (ll : list (list C)),
  Forall2 (fun x ys => Forall2 R (f x) ys) l ll ->
  Forall2 R (flat_map f l) (List.concat ll).
Proof.
  intros A B C R f l ll H; induction H as [| x ys l ll Hx _ IH]; simpl.
  - constructor.
  - apply Forall2_app; assumption.
Qed.

Lemma Forall2_map_l : forall A B C (R : B -> C -> Prop) (f : A -> B) l l',
  Forall2 (fun x y => R (f x) y) l l' -> Forall2 R (map f l) l'.
Proof.
  intros A B C R f l l' H; induction H; simpl; constructor; auto.
Qed.

Lemma Forall2_impl : forall A B (R S : A -> B -> Prop) l l',
  (forall x y, R x y -> S x y) -> Forall2 R l l' -> Forall2 S l l'.
Proof.
  intros A B R S l l' HRS H; induction H; constructor; auto.
Qed.

Lemma parse_run_columns : forall base run rows,
  parse_run base run = Ok rows ->
  Forall (fun r : record => map fst r = finding_columns) rows.
Proof.
  intros base run rows H.
  destruct (parse_run_inv _ _ _ H) as (rs & results & _ & _ & HF).
  apply (Forall2_Forall_r _ _ _ _ _ _ HF).
  intros r row Hr. eapply parse_result_columns; eassumption.
Qed.

Lemma extract_runs : forall path data df,
  extract path data = Ok df ->
  exists rowss,
    Forall2 (fun run rows => parse_run (Str.basename path) run = Ok rows)
            (runs_of data) rowss
    /\ rows df = List.concat rowss.
Proof.
  intros path data df H. unfold extract in H.
  bind_inv H. rename a into rn, Ha into Hrn.
  bind_inv H. rename a into runs, Ha into Hruns.
  bind_inv H. rename a into rowss, Ha into Hrows.
  apply mapM_Forall2 in Hrows. injection H as <-.
  exists rowss. split.
  - unfold runs_of. now rewrite Hrn, Hruns.
  - rewrite frame_findings; trivial.
    apply Forall_forall. intros row Hin.
    apply in_concat in Hin. destruct Hin as (rows & Hrs & Hin).
    destruct (Forall2_In_r _ _ _ _ _ _ Hrows Hrs) as (run & _ & Hp).
    pose proof (parse_run_columns _ _ _ Hp) as Hc.
    rewrite Forall_forall in Hc. now apply Hc.
Qed.

Lemma extract_rows_by_entry : forall path data df,
  extract path data = Ok df ->
  Forall2 (fun e row =>
             parse_result (Str.basename path)
               (_get (fst e) ["tool"; "driver"; "name"]
                     (VStr (Str.basename path)))
               (snd e) = Ok row)
          (entries data) (rows df).
Proof.
  intros path data df H.
  destruct (extract_runs _ _ _ H) as (rowss & Hrows & ->).
  unfold entries. apply Forall2_flat_map.
  eapply Forall2_impl; [| exact Hrows].
  intros run rows Hp. cbn beta.
  destruct (parse_run_inv _ _ _ Hp) as (rs & results & Hg & Hi & HF).
  unfold results_of. rewrite Hg, Hi.
  apply Forall2_map_l. exact HF.
Qed.

(** C4.  An extraction has one row per result entry, in document order.
    The message of a row has no newline character, and is the message
    text of the row's own entry (the empty string when the entry has
    none), trimmed of leading and trailing whitespace, with the newlines
    inside replaced by spaces. *)
Theorem extracted_message_single_line : forall path data df,
  extract path data = Ok df ->
  Forall2 (fun e row =>
             exists source message,
               _get (snd e) ["message"; "text"] (VStr "") = VStr source
               /\ cell row "message" = VStr message
               /\ Str.contains Str.newline message = false
               /\ exists t, trimmed source t
                            /\ message = Str.replace Str.newline Str.space t)
          (entries data) (rows df).
Proof.
  intros path data df H.
  eapply Forall2_impl; [| exact (extract_rows_by_entry _ _ _ H)].
  intros e row Hp. cbn beta in Hp.
  destruct (parse_result_inv _ _ _ _ Hp)
    as (d & loc0 & pl & rg & sev & m & _ & _ & _ & _ & _ & _ & Hm & ->).
  exists m, (Str.strip (Str.replace Str.newline Str.space m)).
  repeat split; trivial.
  - eapply trimmed_contains; [apply strip_trimmed |].
    apply contains_replace. discriminate.
  - exists (Str.strip m). split; [apply strip_trimmed | apply strip_replace].
Qed.

Lemma extracted_message_single_line_witness :
  Forall2 (fun e row =>
             exists source message,
               _get (snd e) ["message"; "text"] (VStr "") = VStr source
               /\ cell row "message" = VStr message
               /\ Str.contains Str.newline message = false
               /\ exists t, trimmed source t
                            /\ message = Str.replace Str.newline Str.space t)
          (entries doc_two_line_message)
          [ [ ("source_sarif", VStr "A.sarif"); ("tool", VStr "A.sarif");
              ("ruleId", VStr "SQL01"); ("level", VStr "error");
              ("severity", VStr ""); ("message", VStr "SQL injection found");
              ("file", VStr ""); ("line", VStr ""); ("col", VStr "");
              ("endLine", VStr "") ] ].
Proof.
  apply (extracted_message_single_line "reports/A.sarif" doc_two_line_message
           (mkFrame finding_columns
              [ [ ("source_sarif", VStr "A.sarif"); ("tool", VStr "A.sarif");
                  ("ruleId", VStr "SQL01"); ("level", VStr "error");
                  ("severity", VStr ""); ("message", VStr "SQL injection found");
                  ("file", VStr ""); ("line", VStr ""); ("col", VStr "");
                  ("endLine", VStr "") ] ])).
  reflexivity.
Defined.

(** X2.  An extraction has one row per result entry, in document order:
    run by run and, within a run, result by result.  Each row carries the
    file name of the document, and its string cells are those of the row
    of its entry, built with the tool name of the entry's run. *)
Theorem extraction_follows_document_order : forall path data df,
  extract path data = Ok df ->
  Forall2 (fun e row =>
             exists r,
               parse_result (Str.basename path)
                 (_get (fst e) ["tool"; "driver"; "name"]
                       (VStr (Str.basename path)))
                 (snd e) = Ok r
               /\ texts row = texts r
               /\ cell row "source_sarif" = VStr (Str.basename path))
          (entries data) (rows df)
  /\ len df = List.length (entries data).
Proof.
  intros path data df H.
  pose proof (extract_rows_by_entry _ _ _ H) as HF.
  split.
  - eapply Forall2_impl; [| exact HF].
    intros e row Hp. cbn beta in Hp. exists row. repeat split; trivial.
    destruct (parse_result_inv _ _ _ _ Hp)
      as (d & loc0 & pl & rg & sev & m & _ & _ & _ & _ & _ & _ & _ & ->).
    reflexivity.
  - unfold len. symmetry. eapply Forall2_length; eassumption.
Qed.

Lemma extraction_follows_document_order_witness :
  Forall2 (fun e row =>
             exists r,
               parse_result (Str.basename "out/scan.sarif")
                 (_get (fst e) ["tool"; "driver"; "name"]
                       (VStr (Str.basename "out/scan.sarif")))
                 (snd e) = Ok r
               /\ texts row = texts r
               /\ cell row "source_sarif" = VStr (Str.basename "out/scan.sarif"))
          (entries two_runs_doc) (rows (extracted "out/scan.sarif" two_runs_doc))
  /\ len (extracted "out/scan.sarif" two_runs_doc)
     = List.length (entries two_runs_doc).
Proof.
  apply (extraction_follows_document_order "out/scan.sarif" two_runs_doc
           (extracted "out/scan.sarif" two_runs_doc)).
  reflexivity.
Defined.

Lemma parse_result_typed : forall base tool r row,
  parse_result base tool r = Ok row ->
  map fst row = finding_columns
  /\ cell row "source_sarif" = VStr base
  /\ cell row "tool" = tool
  /\ is_str (cell row "severity") = true
  /\ is_str (cell row "message") = true.
Proof.
  intros base tool r row H.
  destruct (parse_result_inv _ _ _ _ H)
    as (d & loc0 & pl & rg & sev & m & _ & _ & _ & _ & _ & _ & _ & ->).
  repeat split.
Qed.

(** X3.  Every row of an extraction has the ten columns in their order;
    its [source_sarif] is the base name of the path, and its severity and
    message are strings whatever the document holds.  The frame has the
    ten columns, or none when it has no row. *)
Theorem extracted_rows_typed : forall path data df,
  extract path data = Ok df ->
  columns df = match rows df with [] => [] | _ => finding_columns end
  /\ Forall (fun row =>
               map fst row = finding_columns
               /\ cell row "source_sarif" = VStr (Str.basename path)
               /\ is_str (cell row "severity") = true
               /\ is_str (cell row "message") = true)
            (rows df).
Proof.
  intros path data df H.
  destruct (extract_inv _ _ _ H) as (records & -> & Hsrc).
  split; [reflexivity |].
  apply Forall_forall. intros row Hin. cbn [rows] in Hin.
  destruct (Hsrc row Hin) as (r & tool & _ & Hp).
  destruct (parse_result_typed _ _ _ _ Hp) as (? & ? & _ & ? & ?).
  repeat split; assumption.
Qed.

Lemma extracted_rows_typed_witness :
  columns (extracted "scans/two.sarif" two_runs_doc)
  = match rows (extracted "scans/two.sarif" two_runs_doc) with
    | [] => []
    | _ => finding_columns
    end
  /\ Forall (fun row =>
               map fst row = finding_columns
               /\ cell row "source_sarif" = VStr (Str.basename "scans/two.sarif")
               /\ is_str (cell row "severity") = true
               /\ is_str (cell row "message") = true)
            (rows (extracted "scans/two.sarif" two_runs_doc)).
Proof.
  apply (extracted_rows_typed "scans/two.sarif" two_runs_doc
           (extracted "scans/two.sarif" two_runs_doc)).
  reflexivity.
Defined.

(** ** Normalizing twice *)

Lemma lstrip_fixed : forall t,
  not_space (first_char t) -> Str.lstrip t = t.
Proof.
  intros [| c t] H; simpl in *; trivial. now rewrite H.
Qed.

Lemma rstrip_fixed : forall t,
  not_space (last_char t) -> Str.rstrip t = t.
Proof.
  induction t as [| c t IH]; intros H; simpl in *; trivial.
  destruct t as [| a t].
  - simpl. now rewrite H.
  - rewrite (IH H). reflexivity.
Qed.

Lemma strip_strip : forall s, Str.strip (Str.strip s) = Str.strip s.
Proof.
  intros s. destruct (strip_trimmed s) as (l & r & _ & _ & _ & Hf & Hl).
  unfold Str.strip at 1. now rewrite (rstrip_fixed _ Hl), (lstrip_fixed _ Hf).
Qed.

Lemma replace_replace : forall s,
  Str.replace Str.newline Str.space (Str.replace Str.newline Str.space s)
  = Str.replace Str.newline Str.space s.
Proof.
  induction s as [| c s IH]; simpl; trivial.
  rewrite IH. f_equal.
  destruct (Ascii.eqb_spec c Str.newline) as [-> | Hc]; trivial.
  now apply Ascii.eqb_neq in Hc as ->.
Qed.

(** X4.  Normalizing a message is idempotent: a message already made of
    one trimmed line is stored as it is, so a normalized message that
    goes through the extractor again is not changed. *)
Theorem normalize_idempotent : forall msg s,
  normalize msg = Ok s -> normalize (VStr s) = Ok s.
Proof.
  intros msg s H. unfold normalize in *.
  destruct msg; try discriminate H. cbn [as_str bind] in *.
  injection H as <-. f_equal.
  rewrite (strip_replace s0), replace_replace, strip_replace.
  now rewrite strip_strip.
Qed.

Lemma normalize_idempotent_witness :
  normalize (VStr "SQL injection found") = Ok "SQL injection found".
Proof.
  apply (normalize_idempotent
           (VStr ("  SQL injection" ++ str1 Str.newline ++ "found ")
            )).
  reflexivity.
Defined.

(** ** When the classifier raises *)

Lemma bucket_unreadable : forall row sev level,
  getitem row "severity" = Ok sev ->
  getitem row "level" = Ok level ->
  usable sev = false -> readable level = false ->
  bucket row = Raise (AttributeError (type_name level) "lower").
Proof.
  intros row sev level Hs Hl Hu Hr. unfold bucket.
  rewrite Hs. cbn [bind]. unfold usable in Hu. rewrite Hu.
  rewrite Hl. cbn [bind]. unfold readable in Hr.
  apply orb_false_iff in Hr. destruct Hr as [Ht Hstr].
  apply negb_false_iff in Ht. rewrite or_truthy by assumption.
  destruct level; try discriminate Hstr; reflexivity.
Qed.

(** X5.  On a row with a severity and a level, the classifier raises in
    one case only: the severity is not usable (empty, or "None") and the
    level is a true value that is not a string; the exception is the
    [AttributeError] of [lower] on the level's type.  A usable severity
    is returned whatever the level is, so it hides a level that cannot be
    read. *)
Theorem bucket_raises_iff_unreadable_level : forall row sev level,
  getitem row "severity" = Ok sev ->
  getitem row "level" = Ok level ->
  is_ok (bucket row) = usable sev || readable level
  /\ (usable sev = true -> bucket row = Ok sev)
  /\ (usable sev || readable level = false ->
      bucket row = Raise (AttributeError (type_name level) "lower")).
Proof.
  intros row sev level Hs Hl.
  destruct (usable sev) eqn:Hu.
  - rewrite (bucket_usable _ _ Hs Hu). repeat split. discriminate.
  - destruct (readable level) eqn:Hr.
    + rewrite (bucket_classify _ _ _ Hs Hl (readable_cases _ Hr)).
      repeat split; discriminate.
    + rewrite (bucket_unreadable _ _ _ Hs Hl Hu Hr). repeat split.
      discriminate.
Qed.

Lemma bucket_raises_iff_unreadable_level_witness :
  is_ok (bucket [("severity", VStr "LOW"); ("level", VInt 3)])
  = usable (VStr "LOW") || readable (VInt 3)
  /\ (usable (VStr "LOW") = true ->
      bucket [("severity", VStr "LOW"); ("level", VInt 3)] = Ok (VStr "LOW"))
  /\ (usable (VStr "LOW") || readable (VInt 3) = false ->
      bucket [("severity", VStr "LOW"); ("level", VInt 3)]
      = Raise (AttributeError (type_name (VInt 3)) "lower")).
Proof.
  apply (bucket_raises_iff_unreadable_level
           [("severity", VStr "LOW"); ("level", VInt 3)]);
    reflexivity.
Defined.

(** ** Charts: both or none *)

Lemma mapM_raise : forall A B (f : A -> result B) l e,
  mapM f l = Raise e ->
  exists before x after,
    l = (before ++ x :: after)%list
    /\ Forall (fun y => is_ok (f y) = true) before
    /\ f x = Raise e.
Proof.
  intros A B f l e; induction l as [| a l IH]; simpl; intros H.
  - discriminate H.
  - destruct (f a) as [b |] eqn:Ha.
    + destruct (mapM f l) as [bs |] eqn:Hm; [discriminate H |].
      destruct (IH H) as (before & x & after & -> & HF & Hx).
      exists (a :: before), x, after. repeat split; trivial.
      constructor; trivial. now rewrite Ha.
    + injection H as <-. exists [], a, l. repeat split; trivial.
Qed.

Lemma mapM_first_raise : forall A B (f : A -> result B) before x after e,
  Forall (fun y => is_ok (f y) = true) before ->
  f x = Raise e ->
  mapM f (before ++ x :: after)%list = Raise e.
Proof.
  intros A B f before x after e HF Hx.
  induction HF as [| a before Ha _ IH]; simpl.
  - now rewrite Hx.
  - destruct (f a); [| discriminate Ha]. now rewrite IH.
Qed.


(** X6.  [make_charts] classifies every row before it draws, and
    returns both charts or none.  On a frame that is not empty it raises
    what the first row that does not classify raises, whatever matplotlib
    would do.  When it returns, it returns no chart, for an empty frame,
    or the two charts under [out_dir], for a frame whose rows all
    classified and whose two charts were both drawn.  When it raises, a
    row did not classify, or every row classified and the exception is
    that of the first chart, or the first chart was saved and the
    exception is that of reading the [ruleId] column or of the second
    chart. *)
Theorem make_charts_both_or_none : forall lib df out_dir,
  let p1 := Str.path_join out_dir "severity_distribution.png" in
  let p2 := Str.path_join out_dir "top_rules.png" in
  let chart1 := bar_chart lib "Severity distribution (best-effort)" None p1 in
  let chart2 := bar_chart lib "Top rules (Top 10)" (Some 10) p2 in
  let rule_of := fun row : record => getitem row "ruleId" in
  (forall before row after e,
     empty df = false ->
     rows df = (before ++ row :: after)%list ->
     Forall (fun r => is_ok (bucket r) = true) before ->
     bucket row = Raise e ->
     make_charts lib df out_dir = Raise e)
  /\ (forall cs,
        make_charts lib df out_dir = Ok cs ->
        (empty df = true /\ cs = [])
        \/ (empty df = false
            /\ cs = [p1; p2]
            /\ exists labels rule_ids,
                 Forall2 (fun r l => bucket r = Ok l) (rows df) labels
                 /\ chart1 labels = Ok tt
                 /\ Forall2 (fun r v => rule_of r = Ok v) (rows df) rule_ids
                 /\ chart2 rule_ids = Ok tt))
  /\ (forall e,
        make_charts lib df out_dir = Raise e ->
        empty df = false
        /\ ((exists before row after,
               rows df = (before ++ row :: after)%list
               /\ Forall (fun r => is_ok (bucket r) = true) before
               /\ bucket row = Raise e)
            \/ (exists labels,
                  Forall2 (fun r l => bucket r = Ok l) (rows df) labels
                  /\ (chart1 labels = Raise e
                      \/ (chart1 labels = Ok tt
                          /\ (mapM rule_of (rows df) = Raise e
                              \/ exists rule_ids,
                                   Forall2 (fun r v => rule_of r = Ok v)
                                           (rows df) rule_ids
                                   /\ chart2 rule_ids = Raise e)))))).
Proof.
  intros lib df out_dir p1 p2 chart1 chart2 rule_of.
  unfold make_charts. fold p1 p2. fold chart1 chart2. fold rule_of.
  split; [| split].
  - intros before row after e He Hrows HF Hrow.
    rewrite He, Hrows, (mapM_first_raise _ _ bucket _ _ _ _ HF Hrow).
    reflexivity.
  - intros cs H. destruct (empty df).
    + left. injection H as <-. split; reflexivity.
    + right. bind_inv H. rename a into labels, Ha into Hl.
      bind_inv H. destruct a. rename Ha into H1.
      bind_inv H. rename a into rule_ids, Ha into Hr.
      bind_inv H. destruct a. rename Ha into H2.
      injection H as <-. repeat split.
      exists labels, rule_ids.
      repeat split; trivial; now apply mapM_Forall2.
  - intros e H. destruct (empty df); [discriminate H |].
    split; trivial.
    destruct (mapM bucket (rows df)) as [labels |] eqn:Hl; cbn [bind] in H.
    + right. exists labels. split; [now apply mapM_Forall2 |].
      destruct (chart1 labels) as [[] |] eqn:H1; cbn [bind] in H.
      * right. split; trivial.
        destruct (mapM rule_of (rows df)) as [rule_ids |] eqn:Hr;
          cbn [bind] in H.
        -- right. exists rule_ids. split; [now apply mapM_Forall2 |].
           destruct (chart2 rule_ids) as [[] |]; cbn [bind] in H;
             [discriminate H | now injection H as <-].
        -- left. now injection H as <-.
      * left. now injection H as <-.
    + left. injection H as <-. now apply mapM_raise.
Qed.

(** ** The dataset, document by document *)

Lemma kept_rows : forall fs s,
  flat_map rows (kept_of fs s) = rows_of fs s.
Proof.
  intros fs s. unfold kept_of, rows_of.
  destruct (parse_sarif fs s) as [df | e] eqn:Hs; trivial.
  destruct (empty df) eqn:He; simpl; [| apply app_nil_r].
  destruct (parse_sarif_frame _ _ _ Hs) as [Hr | (records & Hn & -> & _)].
  - now rewrite Hr.
  - destruct records; [congruence | discriminate He].
Qed.

Lemma kept_rows_all : forall fs sarifs,
  flat_map rows (flat_map (kept_of fs) sarifs) = flat_map (rows_of fs) sarifs.
Proof.
  intros fs sarifs; induction sarifs as [| s sarifs IH]; simpl; trivial.
  now rewrite flat_map_app, kept_rows, IH.
Qed.

Lemma aggregate_kept : forall fs sarifs,
  aggregate (flat_map (kept_of fs) sarifs)
  = mkFrame (match flat_map (rows_of fs) sarifs with
             | [] => []
             | _ => finding_columns
             end)
            (flat_map (rows_of fs) sarifs).
Proof.
  intros fs sarifs. rewrite <- kept_rows_all.
  pose proof (kept_are_finding_frames fs sarifs) as HF.
  destruct (flat_map (kept_of fs) sarifs) as [| df dfs] eqn:E; trivial.
  unfold aggregate. rewrite concat_finding_frames by (trivial || discriminate).
  f_equal. inversion HF as [| ? ? (records & Hn & -> & _) _]; subst.
  cbn [flat_map rows]. destruct records; [congruence | reflexivity].
Qed.

Lemma length_flat_map : forall A B (f : A -> list B) l,
  List.length (flat_map f l) = total (map (fun x => List.length (f x)) l).
Proof.
  intros A B f l; induction l as [| x l IH]; simpl; trivial.
  now rewrite List.length_app, IH.
Qed.

Lemma map_flat_map : forall A B C (g : B -> C) (f : A -> list B) l,
  map g (flat_map f l) = flat_map (fun x => map g (f x)) l.
Proof.
  intros A B C g f l; induction l as [| x l IH]; simpl; trivial.
  now rewrite map_app, IH.
Qed.

Lemma dataset_rows : forall fs sarifs,
  rows (aggregate (fst (collect fs sarifs))) = flat_map (rows_of fs) sarifs.
Proof.
  intros fs sarifs. rewrite collect_spec. cbn [fst].
  now rewrite aggregate_kept.
Qed.

Lemma dataset_texts : forall fs sarifs,
  map texts (rows (aggregate (fst (collect fs sarifs))))
  = flat_map (fun s => map texts (rows_of fs s)) sarifs.
Proof. intros fs sarifs. now rewrite dataset_rows, map_flat_map. Qed.

Lemma dataset_len : forall fs sarifs,
  len (aggregate (fst (collect fs sarifs)))
  = total (map (fun s => List.length (rows_of fs s)) sarifs).
Proof.
  intros fs sarifs. unfold len. rewrite dataset_rows. apply length_flat_map.
Qed.

(** X7.  The dataset is the findings of the documents, one document after
    the other in the order they are visited, each document's findings in
    their order: row by row it has the string cells of the documents'
    rows; a document that fails or has no finding adds nothing.  Its size
    is the sum of the documents' sizes, and it has the ten columns unless
    it has no row. *)
Theorem dataset_is_documents_in_order : forall fs sarifs,
  let df_all := aggregate (fst (collect fs sarifs)) in
  map texts (rows df_all) = flat_map (fun s => map texts (rows_of fs s)) sarifs
  /\ len df_all = total (map (fun s => List.length (rows_of fs s)) sarifs)
  /\ columns df_all = match rows df_all with [] => [] | _ => finding_columns end.
Proof.
  intros fs sarifs df_all. unfold df_all.
  split; [apply dataset_texts | split; [apply dataset_len |]].
  rewrite collect_spec. cbn [fst]. rewrite aggregate_kept. reflexivity.
Qed.



(** ** Grouping by source document *)

Lemma ascii_compare_refl : forall a, Ascii.compare a a = Eq.
Proof. intros a. unfold Ascii.compare. apply N.compare_refl. Qed.

Lemma string_compare_trans : forall a b c,
  String.compare a b = Lt -> String.compare b c = Lt -> String.compare a c = Lt.
Proof.
  induction a as [| x a IH]; intros [| y b] [| z c] Hab Hbc; simpl in *;
    try discriminate; trivial.
  destruct (Ascii.compare x y) eqn:Hxy; try discriminate;
    destruct (Ascii.compare y z) eqn:Hyz; try discriminate.
  - apply Ascii.compare_eq_iff in Hxy, Hyz. subst.
    rewrite ascii_compare_refl. eapply IH; eassumption.
  - apply Ascii.compare_eq_iff in Hxy. subst. now rewrite Hyz.
  - apply Ascii.compare_eq_iff in Hyz. subst. now rewrite Hxy.
  - unfold Ascii.compare in *. rewrite N.compare_lt_iff in Hxy, Hyz.
    assert (H : (N_of_ascii x ?= N_of_ascii z)%N = Lt)
      by (apply N.compare_lt_iff; lia).
    now rewrite H.
Qed.

Lemma ltb_trans : forall a b c,
  String.ltb a b = true -> String.ltb b c = true -> String.ltb a c = true.
Proof.
  intros a b c. unfold String.ltb.
  destruct (String.compare a b) eqn:Hab; try discriminate.
  destruct (String.compare b c) eqn:Hbc; try discriminate.
  now rewrite (string_compare_trans _ _ _ Hab Hbc).
Qed.

Lemma ltb_irrefl : forall a, String.ltb a a = false.
Proof.
  intros a. unfold String.ltb.
  pose proof (String.compare_antisym a a) as H.
  destruct (String.compare a a); trivial; discriminate H.
Qed.

Lemma ltb_total : forall a b,
  String.eqb a b = false -> String.ltb a b = false -> String.ltb b a = true.
Proof.
  intros a b Hne Hlt. unfold String.ltb in *.
  rewrite (String.compare_antisym b a).
  destruct (String.compare a b) eqn:H; trivial; try discriminate.
  apply String.compare_eq_iff in H. subst. now rewrite String.eqb_refl in Hne.
Qed.

Lemma insert_key_In : forall k ks k',
  In k' (insert_key k ks) <-> k' = k \/ In k' ks.
Proof.
  intros k ks k'; induction ks as [| a ks IH]; simpl.
  - intuition.
  - destruct (String.eqb_spec k a) as [-> | Hne]; simpl.
    + intuition.
    + destruct (String.ltb k a); simpl; [intuition |].
      rewrite IH. intuition.
Qed.

Lemma insert_key_increasing : forall k ks,
  increasing ks -> increasing (insert_key k ks).
Proof.
  intros k ks; induction ks as [| a ks IH]; intros H.
  - simpl; auto.
  - cbn [insert_key].
    destruct (String.eqb k a) eqn:Hka; trivial.
    destruct (String.ltb k a) eqn:Hlt.
    + split; trivial.
    + destruct H as [Hhead Htail].
      pose proof (ltb_total _ _ Hka Hlt) as Hak.
      split; [| now apply IH].
      destruct ks as [| b ks]; [exact Hak |].
      cbn [insert_key].
      destruct (String.eqb k b); [exact Hhead |].
      destruct (String.ltb k b); [exact Hak | exact Hhead].
Qed.

Lemma increasing_head : forall k ks k',
  increasing (k :: ks) -> In k' ks -> String.ltb k k' = true.
Proof.
  intros k ks; revert k; induction ks as [| a ks IH]; intros k k' H Hin.
  - destruct Hin.
  - destruct H as [Hka Htail]. destruct Hin as [<- | Hin]; trivial.
    eapply ltb_trans; [exact Hka |]. now apply IH.
Qed.

Lemma increasing_NoDup : forall ks, increasing ks -> NoDup ks.
Proof.
  induction ks as [| k ks IH]; intros H; constructor.
  - intros Hin. pose proof (increasing_head _ _ _ H Hin) as Hlt.
    rewrite ltb_irrefl in Hlt. discriminate Hlt.
  - apply IH. destruct H as [_ H]. destruct ks; exact H.
Qed.

Lemma fold_keys : forall c rs acc,
  increasing acc ->
  let ks := fold_left (fun acc r =>
                         match key_of c r with
                         | Some k => insert_key k acc
                         | None => acc
                         end) rs acc in
  increasing ks
  /\ forall k, In k ks <-> In k acc \/ exists r, In r rs /\ key_of c r = Some k.
Proof.
  intros c rs; induction rs as [| r rs IH]; intros acc Hacc; cbn [fold_left].
  - split; trivial. intros k; split; [now left |].
    intros [H | (r & [] & _)]; trivial.
  - destruct (key_of c r) as [k0 |] eqn:Hr.
    + destruct (IH (insert_key k0 acc) (insert_key_increasing _ _ Hacc))
        as [Hinc Hin].
      split; trivial. intros k. rewrite Hin, insert_key_In. split.
      * intros [[-> | H] | (r' & Hr' & Hk)]; [right | now left | right].
        -- exists r; split; [now left | trivial].
        -- exists r'; split; [now right | trivial].
      * intros [H | (r' & [<- | Hr'] & Hk)]; [left; now right | |].
        -- left; left. congruence.
        -- right; exists r'; now split.
    + destruct (IH acc Hacc) as [Hinc Hin].
      split; trivial. intros k. rewrite Hin. split.
      * intros [H | (r' & Hr' & Hk)]; [now left | right].
        exists r'; split; [now right | trivial].
      * intros [H | (r' & [<- | Hr'] & Hk)]; [now left | congruence |].
        right; exists r'; now split.
Qed.

Lemma total_app_pointwise : forall A (f g : A -> nat) l,
  total (map (fun x => (f x + g x)%nat) l)
  = (total (map f l) + total (map g l))%nat.
Proof.
  intros A f g l; induction l as [| x l IH]; simpl; trivial.
  rewrite IH. lia.
Qed.

Lemma total_ext : forall A (f g : A -> nat) l,
  (forall x, In x l -> f x = g x) -> total (map f l) = total (map g l).
Proof.
  intros A f g l; induction l as [| x l IH]; intros H; simpl; trivial.
  rewrite (H x (or_introl eq_refl)), IH; trivial.
  intros y Hy; apply H; now right.
Qed.

Lemma total_indicator : forall k0 ks,
  NoDup ks ->
  total (map (fun k => if String.eqb k0 k then 1%nat else 0%nat) ks)
  = if mem k0 ks then 1%nat else 0%nat.
Proof.
  intros k0 ks H; induction H as [| k ks Hnin _ IH]; simpl; trivial.
  rewrite IH. destruct (String.eqb_spec k0 k) as [-> | Hne]; simpl; trivial.
  destruct (mem k ks) eqn:Hm; trivial.
  exfalso. apply Hnin. unfold mem in Hm. apply existsb_exists in Hm.
  destruct Hm as (x & Hx & E). apply String.eqb_eq in E. now subst.
Qed.

Lemma mem_In : forall k ks, mem k ks = true <-> In k ks.
Proof.
  intros k ks. unfold mem. rewrite existsb_exists. split.
  - intros (x & Hx & E). apply String.eqb_eq in E. now subst.
  - intros H. exists k. split; trivial. apply String.eqb_refl.
Qed.

Lemma group_sizes : forall c ks rs,
  NoDup ks ->
  (forall r k, In r rs -> key_of c r = Some k -> In k ks) ->
  total (map (fun k => List.length (filter (has_key c k) rs)) ks)
  = List.length (filter (has_str_key c) rs).
Proof.
  intros c ks rs Hnd; induction rs as [| r rs IH]; intros Hall.
  - simpl. clear. induction ks; simpl; trivial.
  - rewrite (total_ext _ _
               (fun k => ((if has_key c k r then 1 else 0)
                          + List.length (filter (has_key c k) rs))%nat)).
    2:{ intros k _. simpl. now destruct (has_key c k r). }
    rewrite total_app_pointwise, IH.
    2:{ intros r' k Hr'. apply Hall. now right. }
    cbn [filter]. unfold has_str_key at 2, has_key.
    destruct (key_of c r) as [k0 |] eqn:Hr.
    + rewrite total_indicator by assumption.
      assert (Hm : mem k0 ks = true).
      { apply mem_In. eapply Hall; [now left | exact Hr]. }
      rewrite Hm. reflexivity.
    + assert (E : total (map (fun _ : string => 0%nat) ks) = 0%nat)
        by (clear; induction ks; simpl; trivial).
      rewrite E. reflexivity.
Qed.

Lemma groupby_keys : forall c df,
  increasing (map fst (groupby c df))
  /\ forall k, In k (map fst (groupby c df))
               <-> exists r, In r (rows df) /\ key_of c r = Some k.
Proof.
  intros c df. unfold groupby. rewrite map_map. cbn [fst]. rewrite map_id.
  destruct (fold_keys c (rows df) [] I) as [Hinc Hin].
  split; trivial. intros k. rewrite Hin. split.
  - intros [[] | H]; trivial.
  - intros H; now right.
Qed.

Lemma groupby_sizes : forall c df,
  total (map (fun kg => len (snd kg)) (groupby c df))
  = List.length (filter (has_str_key c) (rows df)).
Proof.
  intros c df.
  destruct (groupby_keys c df) as [Hinc Hkeys].
  unfold groupby in *.
  rewrite map_map in *. cbn [fst snd len rows] in *.
  rewrite map_id in Hinc, Hkeys.
  apply group_sizes.
  - now apply increasing_NoDup.
  - intros r k Hr Hkey. apply Hkeys. eauto.
Qed.

(** Grouping a frame by a column of strings loses and repeats no
    row.  The groups come in strictly increasing key order; each group
    has the frame's columns and holds, in frame order, exactly the rows
    with its key, at least one; every row with a string key is in the
    group of its key; and the group sizes add up to the number of rows
    with a string key. *)
Lemma groupby_partitions_rows : forall c df,
  let groups := groupby c df in
  increasing (map fst groups)
  /\ (forall k g, In (k, g) groups ->
        columns g = columns df
        /\ rows g = filter (has_key c k) (rows df)
        /\ rows g <> [])
  /\ (forall r k, In r (rows df) -> key_of c r = Some k ->
        exists g, In (k, g) groups /\ In r (rows g))
  /\ total (map (fun kg => len (snd kg)) groups)
     = List.length (filter (has_str_key c) (rows df)).
Proof.
  intros c df groups. destruct (groupby_keys c df) as [Hinc Hkeys].
  split; [exact Hinc |]. split; [| split].
  - intros k g Hin.
    assert (Hk : In k (map fst groups)).
    { apply in_map_iff. exists (k, g). now split. }
    apply Hkeys in Hk. destruct Hk as (r & Hr & Hkey).
    rewrite (groupby_rows _ _ _ _ Hin). cbn [columns rows].
    repeat split. intros E.
    assert (Hf : In r (filter (has_key c k) (rows df))).
    { apply filter_In. split; trivial. unfold has_key. rewrite Hkey.
      apply String.eqb_refl. }
    rewrite E in Hf. destruct Hf.
  - intros r k Hr Hkey.
    assert (Hk : In k (map fst groups)) by (apply Hkeys; eauto).
    apply in_map_iff in Hk. destruct Hk as ([k' g] & E & Hin).
    cbn [fst] in E. subst k'. exists g. split; trivial.
    rewrite (groupby_rows _ _ _ _ Hin). cbn [rows].
    apply filter_In. split; trivial. unfold has_key. rewrite Hkey.
    apply String.eqb_refl.
  - apply groupby_sizes.
Qed.

(** ** What the report holds *)

Lemma filter_flat_map : forall A B (p : B -> bool) (f : A -> list B) l,
  filter p (flat_map f l) = flat_map (fun x => filter p (f x)) l.
Proof.
  intros A B p f l; induction l as [| x l IH]; simpl; trivial.
  now rewrite filter_app, IH.
Qed.

Lemma flat_map_nil : forall A B (l : list A),
  flat_map (fun _ : A => @nil B) l = [].
Proof. intros A B l; induction l; simpl; trivial. Qed.

Lemma flat_map_singleton : forall A B (f : A -> B) l,
  flat_map (fun x => [f x]) l = map f l.
Proof. intros A B f l; induction l as [| x l IH]; simpl; now rewrite ?IH. Qed.

Lemma images_of_charts : forall (on_disk : string -> bool) charts,
  flat_map (fun ch => filter is_image
                        (if on_disk ch then [Image ch 520 280; Spacer 1 10]
                         else [])) charts
  = map (fun ch => Image ch 520 280) (filter on_disk charts).
Proof.
  intros on_disk charts; induction charts as [| ch charts IH]; simpl; trivial.
  destruct (on_disk ch); simpl; now rewrite IH.
Qed.

Lemma sections_tables : forall lib (groups : list (string * DataFrame)) sections,
  Forall2 (fun g sec => section lib (fst g) (snd g) = Ok sec) groups sections ->
  filter is_table (List.concat sections)
  = map (fun g => Table (df_to_table_data (snd g) 60) 1
                        [70; 85; 45; 55; 110; 35; 120]) groups
  /\ filter is_image (List.concat sections) = []
  /\ List.length (filter is_note (List.concat sections)) = List.length groups
  /\ Forall (fun g => markup lib (section_title (fst g) (snd g)) = Ok tt) groups.
Proof.
  intros lib groups sections H.
  induction H as [| g sec groups sections Hsec _ (IH1 & IH2 & IH3 & IH4)].
  - repeat split. constructor.
  - destruct (section_inv _ _ _ _ Hsec) as (Hread & ->).
    cbn [List.concat]. rewrite !filter_app, IH1, IH2.
    rewrite List.length_app, IH3.
    repeat split. now constructor.
Qed.

(** X9.  What a report with findings holds, once it is built, for a
    frame whose source names are all strings, as those of a run's dataset
    are.  After the four elements of the heading, its images are the
    charts found on disk, in order, a chart that is not on disk being
    skipped; its tables are one per source document, in key order, each
    the table of that document's rows cut at 60; it has one truncation
    note per source document; and reportlab read every section's
    heading. *)
Theorem report_inventory : forall lib on_disk now df pdf_path charts story,
  build_pdf lib on_disk now df pdf_path charts = Ok story ->
  empty df = false ->
  forallb (has_str_key "source_sarif") (rows df) = true ->
  firstn 4 story = heading now
  /\ filter is_image story
     = map (fun ch => Image ch 520 280) (filter on_disk charts)
  /\ filter is_table story
     = map (fun g => Table (df_to_table_data (snd g) 60) 1
                           [70; 85; 45; 55; 110; 35; 120])
           (groupby "source_sarif" df)
  /\ List.length (filter is_note story)
     = List.length (groupby "source_sarif" df)
  /\ Forall (fun g => markup lib (section_title (fst g) (snd g)) = Ok tt)
            (groupby "source_sarif" df).
Proof.
  intros lib on_disk now df pdf_path charts story H He _.
  destruct (build_pdf_inv _ _ _ _ _ _ _ H He) as (sections & HF & ->).
  destruct (sections_tables _ _ _ HF) as (Ht & Hi & Hn & Hm).
  split; [reflexivity |].
  rewrite !filter_app, !filter_flat_map.
  split; [| split; [| split; [| exact Hm]]].
  - cbn [heading filter is_image app].
    rewrite images_of_charts, Hi. now rewrite app_nil_r.
  - cbn [heading filter is_table app].
    assert (E : flat_map (fun ch : string =>
                  filter is_table
                    (if on_disk ch then [Image ch 520 280; Spacer 1 10]
                     else [])) charts = []).
    { clear. induction charts as [| ch charts IH]; simpl; trivial.
      destruct (on_disk ch); simpl; exact IH. }
    rewrite E. cbn [app]. exact Ht.
  - assert (Hh : filter is_note (heading now) = []) by reflexivity.
    assert (E : flat_map (fun ch : string =>
                  filter is_note
                    (if on_disk ch then [Image ch 520 280; Spacer 1 10]
                     else [])) charts = []).
    { clear. induction charts as [| ch charts IH]; simpl; trivial.
      destruct (on_disk ch); simpl; exact IH. }
    rewrite Hh, E.
    change (filter is_note [PageBreak]) with (@nil flowable).
    cbn [app filter is_note String.eqb Ascii.eqb Bool.eqb]. exact Hn.
Qed.

Lemma report_inventory_witness :
  firstn 4 (story_of
              (build_pdf accepting (fun ch => String.eqb ch "reports/top_rules.png")
                 "2026-01-01T00:00:00" sixty_one_findings
                 "reports/security-report.pdf"
                 ["reports/severity_distribution.png"; "reports/top_rules.png"]))
  = heading "2026-01-01T00:00:00"
  /\ filter is_image
       (story_of
          (build_pdf accepting (fun ch => String.eqb ch "reports/top_rules.png")
             "2026-01-01T00:00:00" sixty_one_findings
             "reports/security-report.pdf"
             ["reports/severity_distribution.png"; "reports/top_rules.png"]))
     = map (fun ch => Image ch 520 280)
           (filter (fun ch => String.eqb ch "reports/top_rules.png")
                   ["reports/severity_distribution.png"; "reports/top_rules.png"])
  /\ filter is_table
       (story_of
          (build_pdf accepting (fun ch => String.eqb ch "reports/top_rules.png")
             "2026-01-01T00:00:00" sixty_one_findings
             "reports/security-report.pdf"
             ["reports/severity_distribution.png"; "reports/top_rules.png"]))
     = map (fun g => Table (df_to_table_data (snd g) 60) 1
                           [70; 85; 45; 55; 110; 35; 120])
           (groupby "source_sarif" sixty_one_findings)
  /\ List.length
       (filter is_note
          (story_of
             (build_pdf accepting
                (fun ch => String.eqb ch "reports/top_rules.png")
                "2026-01-01T00:00:00" sixty_one_findings
                "reports/security-report.pdf"
                ["reports/severity_distribution.png"; "reports/top_rules.png"])))
     = List.length (groupby "source_sarif" sixty_one_findings)
  /\ Forall (fun g => markup accepting (section_title (fst g) (snd g)) = Ok tt)
            (groupby "source_sarif" sixty_one_findings).
Proof.
  apply (report_inventory accepting
           (fun ch => String.eqb ch "reports/top_rules.png")
           "2026-01-01T00:00:00" sixty_one_findings
           "reports/security-report.pdf"
           ["reports/severity_distribution.png"; "reports/top_rules.png"]).
  - vm_compute. reflexivity.
  - reflexivity.
  - vm_compute. reflexivity.
Defined.

Lemma rows_of_source : forall fs s row,
  In row (rows_of fs s) ->
  key_of "source_sarif" row = Some (Str.basename s).
Proof.
  intros fs s row Hin. unfold rows_of in Hin.
  destruct (parse_sarif fs s) as [df | e] eqn:Hs; [| destruct Hin].
  unfold parse_sarif in Hs. bind_inv Hs.
  destruct (extract_inv _ _ _ Hs) as (records & -> & Hsrc).
  destruct (Hsrc row Hin) as (r & tool & _ & Hp).
  destruct (parse_result_typed _ _ _ _ Hp) as (_ & Hsource & _).
  unfold key_of. now rewrite Hsource.
Qed.

(** X10.  The sections of a run's report are per file name.  The keys
    of the sections are the base names of the documents that have a
    finding, in strictly increasing order, so documents of the same name
    in different directories share a section; a section holds, in dataset
    order, exactly the rows of its name; and the finding counts of the
    sections add up to the total of the dataset: no finding is left out
    of the sections or counted twice. *)
Theorem sections_cover_dataset : forall fs sarifs,
  let df_all := aggregate (fst (collect fs sarifs)) in
  let groups := groupby "source_sarif" df_all in
  total (map (fun kg => len (snd kg)) groups) = len df_all
  /\ increasing (map fst groups)
  /\ (forall k,
        In k (map fst groups)
        <-> exists s, In s sarifs /\ rows_of fs s <> [] /\ Str.basename s = k)
  /\ (forall k g,
        In (k, g) groups ->
        rows g = filter (fun row => match cell row "source_sarif" with
                                    | VStr n => String.eqb n k
                                    | _ => false
                                    end) (rows df_all)).
Proof.
  intros fs sarifs df_all groups.
  assert (Hrows : rows df_all = flat_map (rows_of fs) sarifs).
  { unfold df_all. rewrite collect_spec. cbn [fst]. now rewrite aggregate_kept. }
  assert (Hkey : forall row, In row (rows df_all) ->
            exists s, In s sarifs /\ In row (rows_of fs s)
                      /\ key_of "source_sarif" row = Some (Str.basename s)).
  { intros row Hin. rewrite Hrows in Hin. apply in_flat_map in Hin.
    destruct Hin as (s & Hs & Hin). exists s. repeat split; trivial.
    eapply rows_of_source; eassumption. }
  destruct (groupby_keys "source_sarif" df_all) as [Hinc Hkeys].
  split; [| split; [exact Hinc | split]].
  - unfold groups. rewrite groupby_sizes. unfold len. f_equal.
    clear - Hkey. induction (rows df_all) as [| r rs IH]; simpl; trivial.
    destruct (Hkey r (or_introl eq_refl)) as (s & _ & _ & Hk).
    unfold has_str_key at 1. rewrite Hk. f_equal.
    apply IH. intros row Hin. apply Hkey. now right.
  - intros k. fold groups in Hkeys. rewrite Hkeys. split.
    + intros (r & Hr & Hk). destruct (Hkey r Hr) as (s & Hs & Hin & Hk').
      exists s. repeat split; trivial.
      * intros E. rewrite E in Hin. destruct Hin.
      * congruence.
    + intros (s & Hs & Hne & <-).
      destruct (rows_of fs s) as [| r rs] eqn:E; [congruence |].
      exists r. split.
      * rewrite Hrows. apply in_flat_map. exists s. split; trivial.
        rewrite E. now left.
      * eapply rows_of_source. rewrite E. now left.
  - intros k g Hin. rewrite (groupby_rows _ _ _ _ Hin). cbn [rows].
    apply filter_ext. intros row. unfold has_key, key_of.
    now destruct (cell row "source_sarif").
Qed.

(** ** Discovering the documents *)

Lemma fold_insert : forall l acc,
  increasing acc ->
  increasing (fold_left (fun acc s => insert_key s acc) l acc)
  /\ forall s, In s (fold_left (fun acc s => insert_key s acc) l acc)
               <-> In s acc \/ In s l.
Proof.
  induction l as [| x l IH]; intros acc Hacc; cbn [fold_left].
  - split; trivial. intros s; simpl; intuition.
  - destruct (IH (insert_key x acc) (insert_key_increasing _ _ Hacc))
      as [Hinc Hin].
    split; trivial. intros s. rewrite Hin, insert_key_In. simpl. intuition.
Qed.

Lemma increasing_tail : forall k ks, increasing (k :: ks) -> increasing ks.
Proof. intros k ks [_ H]. exact H. Qed.

Lemma increasing_filter : forall (p : string -> bool) ks,
  increasing ks -> increasing (filter p ks).
Proof.
  intros p ks; induction ks as [| k ks IH]; intros H; simpl; trivial.
  pose proof (IH (increasing_tail _ _ H)) as Htail.
  destruct (p k); trivial.
  split; trivial.
  destruct (filter p ks) as [| k' ks'] eqn:E; trivial.
  apply (increasing_head k ks k' H).
  assert (Hin : In k' (filter p ks)) by (rewrite E; now left).
  apply filter_In in Hin. tauto.
Qed.

(** X11.  The documents [main] visits are the paths either glob found
    that hold neither "/.git/" nor "node_modules" anywhere in them, each
    once, in strictly increasing order of their characters. *)
Theorem discover_sorted_filtered : forall top deep,
  increasing (discover top deep)
  /\ NoDup (discover top deep)
  /\ forall s,
       In s (discover top deep)
       <-> (In s top \/ In s deep)
           /\ Str.has_sub "/.git/" s = false
           /\ Str.has_sub "node_modules" s = false.
Proof.
  intros top deep. unfold discover.
  destruct (fold_insert (top ++ deep)%list [] I) as [Hinc Hin].
  assert (Hf : increasing
                 (filter (fun s => negb (Str.has_sub "/.git/" s)
                                   && negb (Str.has_sub "node_modules" s))
                    (fold_left (fun acc s => insert_key s acc)
                               (top ++ deep)%list [])))
    by now apply increasing_filter.
  split; [exact Hf |]. split; [now apply increasing_NoDup |].
  intros s. rewrite filter_In, Hin, in_app_iff, andb_true_iff,
    !negb_true_iff. simpl. tauto.
Qed.

(** ** The table and the frame *)

Lemma df_to_table_data_by_row : forall df,
  exists g,
    (forall max_rows,
       df_to_table_data df max_rows
       = cols :: map (fun r => table_row (g r)) (slice_to max_rows (rows df)))
    /\ forall r c, In c cols -> str (cell (g r) c) = source_text df r c.
Proof.
  intros df.
  destruct (fill_rows cols df) as (g & Hrows & Hcell).
  exists g. split.
  - intros max_rows. unfold df_to_table_data, fill_missing.
    cbn [head select rows columns]. rewrite Hrows.
    rewrite slice_to_map, slice_to_map, !map_map. reflexivity.
  - intros r c Hc. rewrite Hcell. unfold source_text.
    assert (E : mem c cols = true) by now apply mem_In.
    rewrite E. simpl. now destruct (mem c (columns df)).
Qed.

Lemma table_row_ext : forall x y,
  (forall c, In c cols -> str (cell x c) = str (cell y c)) ->
  table_row x = table_row y.
Proof.
  intros x y H. unfold table_row.
  rewrite (H "tool"), (H "ruleId"), (H "level"), (H "severity"),
    (H "file"), (H "line"), (H "message"); trivial; simpl; auto 10.
Qed.

Lemma Forall2_firstn : forall A B (R : A -> B -> Prop) n l l',
  Forall2 R l l' -> Forall2 R (firstn n l) (firstn n l').
Proof.
  intros A B R n l l' H; revert n.
  induction H as [| a b l l' Hab _ IH]; intros [| n]; simpl;
    constructor; auto.
Qed.

Lemma Forall2_slice_to : forall A B (R : A -> B -> Prop) n l l',
  Forall2 R l l' -> Forall2 R (slice_to n l) (slice_to n l').
Proof.
  intros A B R n l l' H. unfold slice_to.
  rewrite (Forall2_length _ _ _ _ _ H).
  destruct (0 <=? n); now apply Forall2_firstn.
Qed.

Lemma Forall2_map_eq : forall A B C (f : A -> C) (g : B -> C) l l',
  Forall2 (fun a b => f a = g b) l l' -> map f l = map g l'.
Proof.
  intros A B C f g l l' H; induction H; simpl; congruence.
Qed.

(** X12.  The table shows the seven columns and nothing else: two frames
    that have the same of the seven columns, and the same cells in them
    row by row, give the same grid, whatever their other columns
    ([source_sarif], [col], [endLine]) hold. *)
Theorem table_reads_seven_columns_only : forall df1 df2 max_rows,
  (forall c, In c cols -> mem c (columns df1) = mem c (columns df2)) ->
  Forall2 (fun r1 r2 => forall c, In c cols -> cell r1 c = cell r2 c)
          (rows df1) (rows df2) ->
  df_to_table_data df1 max_rows = df_to_table_data df2 max_rows.
Proof.
  intros df1 df2 max_rows Hcols Hrows.
  destruct (df_to_table_data_by_row df1) as (g1 & E1 & H1).
  destruct (df_to_table_data_by_row df2) as (g2 & E2 & H2).
  rewrite E1, E2. f_equal. apply Forall2_map_eq.
  eapply Forall2_impl; [| apply Forall2_slice_to; exact Hrows].
  intros r1 r2 Hr. apply table_row_ext. intros c Hc.
  rewrite H1, H2 by assumption. unfold source_text.
  now rewrite (Hcols c Hc), (Hr c Hc).
Qed.

Lemma table_reads_seven_columns_only_witness :
  df_to_table_data long_path_frame 2
  = df_to_table_data long_path_frame_with_source 2.
Proof.
  apply (table_reads_seven_columns_only long_path_frame
           long_path_frame_with_source 2).
  - intros c Hc. simpl in Hc.
    repeat (destruct Hc as [<- | Hc]; [reflexivity |]). destruct Hc.
  - repeat constructor; intros c Hc; simpl in Hc;
      repeat (destruct Hc as [<- | Hc]; [reflexivity |]); destruct Hc.
Defined.

(** X13.  Raising the maximum only adds rows at the end of the grid: the
    grid for a maximum is the part of the grid for a larger maximum that
    has that many rows below the header.  A frame with no more rows than
    the maximum is shown whole. *)
Theorem table_grows_at_the_end : forall df n m,
  0 <= n <= m ->
  df_to_table_data df n
  = firstn (S (Z.to_nat n)) (df_to_table_data df m)
  /\ (Z.of_nat (len df) <= n ->
      List.length (df_to_table_data df n) = S (len df)).
Proof.
  intros df n m Hnm.
  destruct (df_to_table_data_by_row df) as (g & E & _).
  rewrite !E, !slice_to_nonneg by lia. split.
  - cbn [firstn]. f_equal. rewrite firstn_map, firstn_firstn.
    now rewrite Nat.min_l by lia.
  - intros Hlen. cbn [List.length]. rewrite length_map.
    unfold len in *. rewrite firstn_all2 by lia. reflexivity.
Qed.

Lemma table_grows_at_the_end_witness :
  df_to_table_data long_path_frame 1
  = firstn (S (Z.to_nat 1)) (df_to_table_data long_path_frame 3)
  /\ (Z.of_nat (len long_path_frame) <= 1 ->
      List.length (df_to_table_data long_path_frame 1)
      = S (len long_path_frame)).
Proof.
  apply (table_grows_at_the_end long_path_frame 1 3). lia.
Defined.

(** ** A malformed entry *)

Lemma entries_all_ok : forall path data df,
  extract path data = Ok df ->
  forall e, In e (entries data) -> entry_ok (snd e) = true.
Proof.
  intros path data df H e Hin.
  pose proof (extract_rows_by_entry _ _ _ H) as HF.
  assert (Hok : Forall (fun e => entry_ok (snd e) = true) (entries data)).
  { clear Hin. induction HF as [| e' row es rows Hp _ IH]; constructor; trivial.
    rewrite <- (is_ok_parse_result (Str.basename path)
                  (_get (fst e') ["tool"; "driver"; "name"]
                        (VStr (Str.basename path)))).
    now rewrite Hp. }
  rewrite Forall_forall in Hok. now apply Hok.
Qed.

(** X14.  One malformed result entry costs its document all its
    findings: when any entry of a parsed document is not of the expected
    shape, the extraction of the whole document raises, the document is
    counted as failed, and it adds no row to the dataset, the well-formed
    entries beside it included. *)
Theorem malformed_entry_drops_document : forall fs s data run r,
  fs s = Ok data ->
  In (run, r) (entries data) ->
  entry_ok r = false ->
  (exists e, parse_sarif fs s = Raise e)
  /\ fails fs s = true
  /\ rows_of fs s = [].
Proof.
  intros fs s data run r Hs Hin Hbad.
  assert (H : exists e, parse_sarif fs s = Raise e).
  { unfold parse_sarif. rewrite Hs. cbn [bind].
    destruct (extract s data) as [df | e] eqn:He; [| now exists e].
    pose proof (entries_all_ok _ _ _ He (run, r) Hin) as Hok.
    cbn [snd] in Hok. congruence. }
  destruct H as (e & He). split; [now exists e |].
  unfold fails, rows_of. rewrite He. split; reflexivity.
Qed.

Lemma malformed_entry_drops_document_witness :
  (exists e, parse_sarif bad_entry_file "a.sarif" = Raise e)
  /\ fails bad_entry_file "a.sarif" = true
  /\ rows_of bad_entry_file "a.sarif" = [].
Proof.
  apply (malformed_entry_drops_document bad_entry_file "a.sarif"
           one_bad_entry_doc
           (VDict [("results",
              VList [VDict [("ruleId", VStr "SQL01"); ("level", VStr "error");
                            ("message", VDict [("text", VStr "SQL injection")])];
                     VDict [("ruleId", VStr "XSS02");
                            ("message", VDict [("text", VInt 5)])]])])
           (VDict [("ruleId", VStr "XSS02");
                   ("message", VDict [("text", VInt 5)])])).
  - reflexivity.
  - right; left; reflexivity.
  - reflexivity.
Defined.

(** ** The greeting *)

Lemma starts_with_app : forall t u, Str.starts_with t (t ++ u) = true.
Proof.
  induction t as [| x t IH]; intros u; simpl; trivial.
  now rewrite Ascii.eqb_refl, IH.
Qed.

Lemma starts_with_has_sub : forall p t,
  Str.starts_with p t = true -> Str.has_sub p t = true.
Proof. intros p [| c t] H; simpl; now rewrite H. Qed.

Lemma has_sub_app : forall s a b, Str.has_sub s (a ++ s ++ b) = true.
Proof.
  intros s a b; induction a as [| c a IH].
  - change ("" ++ s ++ b) with (s ++ b).
    apply starts_with_has_sub, starts_with_app.
  - cbn [append Str.has_sub]. rewrite IH. apply orb_true_r.
Qed.

Lemma args_get_cases : forall a k dflt,
  (exists v before after,
     a = (before ++ (k, v) :: after)%list
     /\ (forall w, ~ In (k, w) before)
     /\ Server.args_get a k dflt = v)
  \/ ((forall v, ~ In (k, v) a) /\ Server.args_get a k dflt = dflt).
Proof.
  intros a k dflt; induction a as [| [k' v'] a IH]; simpl.
  - right. split; trivial. intros v [].
  - destruct (String.eqb_spec k' k) as [-> | Hne].
    + left. exists v', [], a. repeat split. intros w [].
    + destruct IH as [(v & before & after & -> & Hb & E) | (Hnone & E)].
      * left. exists v, ((k', v') :: before), after. repeat split; trivial.
        intros w [H | H]; [injection H as H1 _; contradiction |].
        eapply Hb; eassumption.
      * right. split; trivial. intros v [H | H].
        -- injection H as H1 _. contradiction.
        -- eapply Hnone; eassumption.
Qed.

(** X15.  The greeting puts the [name] parameter of the request into
    the page as it is, markup included: the body is the fixed opening,
    the text of the first [name] parameter unchanged, and the fixed
    closing, so the body contains that text as sent.  Without the
    parameter the name is Guest; an empty parameter is kept empty. *)
Theorem hello_embeds_name_verbatim : forall a,
  exists name,
    Server.hello a = "<h1>Hello, " ++ name ++ "!</h1>"
    /\ Str.has_sub name (Server.hello a) = true
    /\ ((exists before after,
           a = (before ++ ("name", name) :: after)%list
           /\ forall w, ~ In ("name", w) before)
        \/ (name = "Guest" /\ forall v, ~ In ("name", v) a)).
Proof.
  intros a. exists (Server.args_get a "name" "Guest").
  split; [reflexivity |]. split; [apply has_sub_app |].
  destruct (args_get_cases a "name" "Guest")
    as [(v & before & after & Ha & Hb & E) | (Hnone & E)]; rewrite E.
  - left. now exists before, after.
  - right. now split.
Qed.

(** ** Failing documents *)

Lemma run_spec : forall fs lib on_disk now sarifs,
  run fs lib on_disk now sarifs
  = (let df_all := aggregate (fst (collect fs sarifs)) in
     charts <- make_charts lib df_all "reports" ;;
     story <- build_pdf lib on_disk now df_all "reports/security-report.pdf"
                        charts ;;
     Ok (mkOutcome df_all charts story
           (List.app (snd (collect fs sarifs))
              [ "Found SARIF files: " ++ Str.of_nat (List.length sarifs);
                "Findings: " ++ Str.of_nat (len df_all);
                "Wrote: reports/findings.csv";
                "Wrote: reports/security-report.pdf" ]))).
Proof.
  intros fs lib on_disk now sarifs. unfold run.
  destruct (collect fs sarifs) as [dfs warnings]. reflexivity.
Qed.

Lemma collect_without_failures : forall fs sarifs,
  fst (collect fs (filter (fun s => negb (fails fs s)) sarifs))
  = fst (collect fs sarifs).
Proof.
  intros fs sarifs. rewrite !collect_spec. cbn [fst].
  apply kept_skips_failures.
Qed.


(** X16.  A failing document does not hide another failure: when the run
    over the documents that parse is ended by an exception, the run over
    all the documents is ended by the same exception. *)
Theorem failures_do_not_mask_errors : forall fs lib on_disk now sarifs e,
  run fs lib on_disk now (filter (fun s => negb (fails fs s)) sarifs) = Raise e ->
  run fs lib on_disk now sarifs = Raise e.
Proof.
  intros fs lib on_disk now sarifs e H.
  rewrite run_spec in *. rewrite collect_without_failures in H.
  cbv zeta in *.
  destruct (make_charts lib (aggregate (fst (collect fs sarifs))) "reports")
    as [ch |]; cbn [bind] in *; trivial.
  destruct (build_pdf lib on_disk now (aggregate (fst (collect fs sarifs)))
              "reports/security-report.pdf" ch); cbn [bind] in *;
    [discriminate H | trivial].
Qed.

Lemma failures_do_not_mask_errors_witness :
  run numeric_level_then_invalid accepting (fun _ => true)
      "2026-01-01T00:00:00" ["a.sarif"; "b.sarif"]
  = Raise (AttributeError "int" "lower").
Proof.
  apply (failures_do_not_mask_errors numeric_level_then_invalid accepting
           (fun _ => true) "2026-01-01T00:00:00" ["a.sarif"; "b.sarif"]).
  reflexivity.
Defined.



(** The scenario of section 8: of three documents the second is not
    valid; the findings of the first and third are in the dataset, one
    warning is printed, and the run reaches its end. *)
Example three_documents_second_invalid :
  match run second_is_invalid accepting (fun _ => true) "2026-01-01T00:00:00"
            ["a.sarif"; "b.sarif"; "c.sarif"] with
  | Ok o =>
      map (fun r => cell r "ruleId") (rows (dataset o))
      = [VStr "SQL01"; VStr "XSS02"]
      /\ stdout o
         = [ "[WARN] Failed to parse b.sarif: Expecting value: line 1 column 1 (char 0)";
             "Found SARIF files: 3";
             "Findings: 2";
             "Wrote: reports/findings.csv";
             "Wrote: reports/security-report.pdf" ]
  | Raise _ => False
  end.
Proof. vm_compute. split; reflexivity. Qed.

(** The end-to-end scenario of section 8: document A has one result and
    document B has none.  The dataset is the one finding of A, classified
    HIGH, with its message on one line; two charts are made and the
    report has one section with one table row. *)
Example end_to_end_two_documents :
  match run two_documents accepting (fun _ => true) "2026-01-01T00:00:00"
            ["A.sarif"; "B.sarif"] with
  | Ok o =>
      rows (dataset o)
      = [ [ ("source_sarif", VStr "A.sarif"); ("tool", VStr "A.sarif");
            ("ruleId", VStr "SQL01"); ("level", VStr "error");
            ("severity", VStr ""); ("message", VStr "SQL injection found");
            ("file", VStr ""); ("line", VStr ""); ("col", VStr "");
            ("endLine", VStr "") ] ]
      /\ map bucket (rows (dataset o)) = [Ok (VStr "HIGH")]
      /\ charts o
         = ["reports/severity_distribution.png"; "reports/top_rules.png"]
      /\ filter is_table (story o)
         = [ Table [ ["tool"; "ruleId"; "level"; "severity"; "file"; "line";
                      "message"];
                     ["A.sarif"; "SQL01"; "error"; ""; ""; "";
                      "SQL injection found"] ]
                   1 [70; 85; 45; 55; 110; 35; 120] ]
  | Raise _ => False
  end.
Proof. vm_compute. repeat split. Qed.

(** ** Headings reportlab does not read *)

(** X17.  A file name that reportlab does not read as markup ends the
    report: for a dataset with findings whose source names are all
    strings, [build_pdf] raises what the heading of the first section, in
    key order, that is not read raises, and no story is handed over. *)
Theorem unread_heading_aborts_report :
  forall lib on_disk now df pdf_path charts before g after e,
  empty df = false ->
  mem "source_sarif" (columns df) = true ->
  forallb (has_str_key "source_sarif") (rows df) = true ->
  groupby "source_sarif" df = (before ++ g :: after)%list ->
  Forall (fun g' => is_ok (markup lib (section_title (fst g') (snd g'))) = true)
         before ->
  markup lib (section_title (fst g) (snd g)) = Raise e ->
  build_pdf lib on_disk now df pdf_path charts = Raise e.
Proof.
  intros lib on_disk now df pdf_path charts before g after e
         He Hc _ Hg Hb Hm.
  unfold build_pdf. rewrite He, Hc, Hg.
  rewrite (mapM_first_raise _ _ (fun g => section lib (fst g) (snd g))
             before g after e); trivial.
  - eapply Forall_impl; [| exact Hb]. intros g' Hg'. cbn beta in *.
    unfold section.
    destruct (markup lib (section_title (fst g') (snd g')));
      [reflexivity | discriminate Hg'].
  - unfold section. now rewrite Hm.
Qed.

Lemma unread_heading_aborts_report_witness :
  build_pdf no_tag_y (fun _ => true) "2026-01-01T00:00:00"
            (extracted "out/x<y.sarif" (one_finding_doc "SQL01"))
            "reports/security-report.pdf"
            ["reports/severity_distribution.png"; "reports/top_rules.png"]
  = Raise (ValueError "paragraph text is not well-formed markup").
Proof.
  apply (unread_heading_aborts_report no_tag_y (fun _ => true)
           "2026-01-01T00:00:00"
           (extracted "out/x<y.sarif" (one_finding_doc "SQL01"))
           "reports/security-report.pdf"
           ["reports/severity_distribution.png"; "reports/top_rules.png"]
           []
           ("x<y.sarif", extracted "out/x<y.sarif" (one_finding_doc "SQL01"))
           []).
  - reflexivity.
  - reflexivity.
  - reflexivity.
  - reflexivity.
  - constructor.
  - reflexivity.
Defined.
